(** * Multidown: the link extractor, the resilient fetcher and the download
    orchestrator of [src/App.jsx], embedded in Rocq.

    The JavaScript the component relies on is modelled first (strings, one
    regular expression engine, JSON values, property access), then the
    component's own functions under their source names, then the properties.

    Conventions of the embedding:
    - a JavaScript string is a [string]; each [ascii] stands for one UTF-16
      code unit in the range 0..255, and the case mappings and white space
      below are the ECMAScript ones restricted to that range;
    - a JSON number is a binary64 [float];
    - [undefined] is [None] where a property read may miss;
    - asynchronous functions are programs of the monad [M]: they update the
      [useState] cells, append what they do to the outside world to a trace,
      and read the outside world (network, [Math.random]) from an [Env]. *)

From Stdlib Require Import String Ascii List Bool Arith ZArith NArith Lia.
From Stdlib Require Import QArith Qround.
From Stdlib Require Import DecimalString.
From Stdlib Require Import Floats.PrimFloat.
Import ListNotations.

Local Open Scope string_scope.
Local Open Scope bool_scope.
Local Open Scope nat_scope.

(* ===================================================================== *)
(** ** JavaScript strings *)
(* ===================================================================== *)

Module Str.

(** [s.startsWith(p)] *)
Definition startsWith (s p : string) : bool := String.prefix p s.

(** [s.includes(p)]: [p] occurs somewhere in [s]. *)
Fixpoint includes (s p : string) : bool :=
  String.prefix p s ||
  match s with
  | EmptyString => false
  | String _ s' => includes s' p
  end.

(** Simple lower-case mapping of one code unit below 256: A-Z and the
    Latin-1 capitals U+00C0..U+00DE (the sign U+00D7 apart). *)
Definition toLowerChar (c : ascii) : ascii :=
  let n := N_of_ascii c in
  if ((65 <=? n) && (n <=? 90) ||
      (192 <=? n) && (n <=? 222) && negb (n =? 215))%N
  then ascii_of_N (n + 32) else c.

(** [s.toLowerCase()] *)
Fixpoint toLowerCase (s : string) : string :=
  match s with
  | EmptyString => EmptyString
  | String c s' => String (toLowerChar c) (toLowerCase s')
  end.

(** White space and line terminators below 256: TAB, LF, VT, FF, CR, SP and
    NBSP. *)
Definition isWhiteSpace (c : ascii) : bool :=
  let n := N_of_ascii c in
  ((9 <=? n) && (n <=? 13) || (n =? 32) || (n =? 160))%N.

Fixpoint trimStart (s : string) : string :=
  match s with
  | EmptyString => EmptyString
  | String c s' => if isWhiteSpace c then trimStart s' else s
  end.

Fixpoint trimEnd (s : string) : string :=
  match s with
  | EmptyString => EmptyString
  | String c s' =>
      let r := trimEnd s' in
      if isWhiteSpace c && (r =? "")%string then EmptyString else String c r
  end.

(** [s.trim()] *)
Definition trim (s : string) : string := trimEnd (trimStart s).

(** [s.substring(a, b)]: the code units from [min a b] up to [max a b]. *)
Definition substring (s : string) (a b : nat) : string :=
  String.substring (Nat.min a b) (Nat.max a b - Nat.min a b) s.

(** [s.replace(/[cs]/g, '')] for a character class [cs]: every code unit of
    the class is deleted. *)
Fixpoint removeClass (cs : list ascii) (s : string) : string :=
  match s with
  | EmptyString => EmptyString
  | String c s' =>
      if existsb (Ascii.eqb c) cs then removeClass cs s'
      else String c (removeClass cs s')
  end.

(** A string is falsy exactly when it is empty. *)
Definition nonEmpty (s : string) : bool := negb (s =? "")%string.

(** [a || b] on strings. *)
Definition orElse (a b : string) : string := if nonEmpty a then a else b.



(** [encodeURIComponent]: the unreserved marks stay, every other code unit
    is written as the percent-escaped bytes of its UTF-8 form. *)
Definition isUnreserved (c : ascii) : bool :=
  let n := N_of_ascii c in
  ((65 <=? n) && (n <=? 90) || (97 <=? n) && (n <=? 122) ||
   (48 <=? n) && (n <=? 57))%N ||
  existsb (Ascii.eqb c) ["-"; "_"; "."; "!"; "~"; "*"; "'"; "("; ")"]%char.

Definition hexDigit (n : N) : ascii :=
  if (n <? 10)%N then ascii_of_N (48 + n) else ascii_of_N (55 + n).

Definition percentByte (b : N) : string :=
  String "%" (String (hexDigit (b / 16)) (String (hexDigit (b mod 16)) "")).

Definition encodeChar (c : ascii) : string :=
  let n := N_of_ascii c in
  if isUnreserved c then String c ""
  else if (n <? 128)%N then percentByte n
  else percentByte (192 + n / 64) ++ percentByte (128 + n mod 64).

Fixpoint encodeURIComponent (s : string) : string :=
  match s with
  | EmptyString => EmptyString
  | String c s' => encodeChar c ++ encodeURIComponent s'
  end.

End Str.

(* ===================================================================== *)
(** ** Regular expressions (the fragment the component uses) *)
(* ===================================================================== *)

Module Regex.

Inductive regex : Type :=
| Eps                      (* the empty pattern *)
| Chr (c : ascii)          (* one literal character *)
| Seq (r1 r2 : regex)      (* r1 r2 *)
| Alt (r1 r2 : regex)      (* r1|r2 *)
| Eos.                     (* $ without the m flag: end of input *)

(** Canonicalize of the [i] flag without the [u] flag: the upper-case
    mapping when it is one code unit, never from a non-ASCII unit to an
    ASCII one. The result may lie above 255 (micro sign, y diaeresis). *)
Definition canonicalize (c : ascii) : N :=
  let n := N_of_ascii c in
  (if (97 <=? n) && (n <=? 122) then n - 32
   else if (224 <=? n) && (n <=? 254) && negb (n =? 247) then n - 32
   else if n =? 181 then 924
   else if n =? 255 then 376
   else n)%N.

Definition charMatches (ignoreCase : bool) (p c : ascii) : bool :=
  if ignoreCase then (canonicalize p =? canonicalize c)%N else Ascii.eqb p c.

(** Backtracking matcher: [matchAt i r s k] matches [r] at the start of [s]
    and hands what is left to the continuation [k]. *)
Fixpoint matchAt (i : bool) (r : regex) (s : string) (k : string -> bool) : bool :=
  match r with
  | Eps => k s
  | Chr p =>
      match s with
      | EmptyString => false
      | String c s' => if charMatches i p c then k s' else false
      end
  | Seq r1 r2 => matchAt i r1 s (fun s' => matchAt i r2 s' k)
  | Alt r1 r2 => matchAt i r1 s k || matchAt i r2 s k
  | Eos =>
      match s with
      | EmptyString => k s
      | String _ _ => false
      end
  end.

(** [r.test(s)]: a match starting at some index of [s], leftmost first. *)
Fixpoint test (i : bool) (r : regex) (s : string) : bool :=
  matchAt i r s (fun _ => true) ||
  match s with
  | EmptyString => false
  | String _ s' => test i r s'
  end.

(** A literal word as a pattern. *)
Fixpoint lit (w : string) : regex :=
  match w with
  | EmptyString => Eps
  | String c w' => Seq (Chr c) (lit w')
  end.

End Regex.

(* ===================================================================== *)
(** ** JSON values and property access *)
(* ===================================================================== *)

(** What [res.json()] and [JSON.parse] produce. The properties of an object
    are listed in [for ... in] order; [JSON.parse] yields distinct keys, and
    a read takes the first entry of a key. *)
#[warnings="-register-all"]
Inductive value : Type :=
| VNull
| VBool (b : bool)
| VNum (x : float)
| VStr (s : string)
| VArr (items : list value)
| VObj (props : list (string * value)).

(** Induction over nested values. *)
Section ValueInd.
Variable P : value -> Prop.
Hypothesis HNull : P VNull.
Hypothesis HBool : forall b, P (VBool b).
Hypothesis HNum : forall x, P (VNum x).
Hypothesis HStr : forall s, P (VStr s).
Hypothesis HArr : forall items, Forall P items -> P (VArr items).
Hypothesis HObj : forall props, Forall (fun kv => P (snd kv)) props -> P (VObj props).

Fixpoint value_nested_ind (v : value) : P v :=
  match v with
  | VNull => HNull
  | VBool b => HBool b
  | VNum x => HNum x
  | VStr s => HStr s
  | VArr items =>
      HArr items
        ((fix go (l : list value) : Forall P l :=
            match l with
            | [] => Forall_nil _
            | x :: l' => Forall_cons _ (value_nested_ind x) (go l')
            end) items)
  | VObj props =>
      HObj props
        ((fix go (l : list (string * value)) : Forall (fun kv => P (snd kv)) l :=
            match l with
            | [] => Forall_nil _
            | kv :: l' =>
                Forall_cons (P := fun kv => P (snd kv)) kv
                  (value_nested_ind (snd kv)) (go l')
            end) props)
  end.
End ValueInd.

(** ToBoolean *)
Definition truthy (v : value) : bool :=
  match v with
  | VNull => false
  | VBool b => b
  | VNum x => negb (PrimFloat.eqb x 0%float || PrimFloat.is_nan x)
  | VStr s => Str.nonEmpty s
  | VArr _ | VObj _ => true
  end.

Fixpoint lookup (key : string) (props : list (string * value)) : option value :=
  match props with
  | [] => None
  | (k, v) :: rest => if (k =? key)%string then Some v else lookup key rest
  end.

(** [obj[key]] for a property name [key] that is neither an array index nor
    a member of a built-in prototype (every name the component reads by
    name is such a name, strings being handled before any such read);
    [None] is [undefined]. Reading a property of [null] throws: the callers
    test for it. *)
Definition getProp (obj : value) (key : string) : option value :=
  match obj with
  | VObj props => lookup key props
  | _ => None
  end.

(** [obj[0]] *)
Definition getIndex0 (obj : value) : option value :=
  match obj with
  | VObj props => lookup "0" props
  | VArr items => hd_error items
  | VStr (String c _) => Some (VStr (String c ""))
  | _ => None
  end.

(* ===================================================================== *)
(** ** The link extractor *)
(* ===================================================================== *)

(** [/\.(jpg|jpeg|png|webp|gif|svg|bmp|tiff)$/i] *)
Definition imageExtensions : list string :=
  ["jpg"; "jpeg"; "png"; "webp"; "gif"; "svg"; "bmp"; "tiff"].

Definition imageRegex : Regex.regex :=
  Regex.Seq (Regex.Chr ".")
    (Regex.Seq
       (Regex.Alt (Regex.lit "jpg")
       (Regex.Alt (Regex.lit "jpeg")
       (Regex.Alt (Regex.lit "png")
       (Regex.Alt (Regex.lit "webp")
       (Regex.Alt (Regex.lit "gif")
       (Regex.Alt (Regex.lit "svg")
       (Regex.Alt (Regex.lit "bmp") (Regex.lit "tiff"))))))))
       Regex.Eos).

Definition isVideoUrl (string : value) : bool :=
  match string with
  | VStr s =>
      if negb (Str.startsWith s "http") then false
      else if Regex.test true imageRegex s then false
      else true
  | _ => false
  end.

Definition priorityKeys : list string :=
  ["hd"; "sd"; "mp4"; "video"; "stream"; "download_url"; "download"].

Definition genericKeys : list string := ["url"; "link"; "src"].

Definition skippedKeys : list string :=
  ["thumbnail"; "image"; "cover"; "poster"; "avatars"; "author"].

(** [skippedKeys.includes(key.toLowerCase())] *)
Definition isSkippedKey (key : string) : bool :=
  existsb (String.eqb (Str.toLowerCase key)) skippedKeys.

(** [for (const key of keys) if (obj[key] && isVideoUrl(obj[key])) return obj[key]] *)
Fixpoint firstVideoKey (keys : list string) (obj : value) : option value :=
  match keys with
  | [] => None
  | key :: rest =>
      match getProp obj key with
      | Some v => if truthy v && isVideoUrl v then Some v else firstVideoKey rest obj
      | None => firstVideoKey rest obj
      end
  end.

(** The result is [None] for [null], the found value otherwise. The keys
    that [for ... in] yields on an array are its indices, none of which is a
    skipped key; a number or [true] has no property of the listed names and
    is not an object. *)
Fixpoint findDownloadLink (obj : value) : option value :=
  if negb (truthy obj) then None
  else
    match obj with
    | VStr _ => if isVideoUrl obj then Some obj else None
    | _ =>
        match firstVideoKey priorityKeys obj with
        | Some v => Some v
        | None =>
            match firstVideoKey genericKeys obj with
            | Some v => Some v
            | None =>
                match obj with
                | VObj props =>
                    (fix search (ps : list (string * value)) : option value :=
                       match ps with
                       | [] => None
                       | (key, v) :: ps' =>
                           if isSkippedKey key then search ps'
                           else
                             match findDownloadLink v with
                             | Some found =>
                                 if truthy found then Some found else search ps'
                             | None => search ps'
                             end
                       end) props
                | VArr items =>
                    (fix search (vs : list value) : option value :=
                       match vs with
                       | [] => None
                       | v :: vs' =>
                           match findDownloadLink v with
                           | Some found =>
                               if truthy found then Some found else search vs'
                           | None => search vs'
                           end
                       end) items
                | _ => None
                end
            end
        end
    end.

(* ===================================================================== *)
(** ** The outside world, the component's state, and the monad *)
(* ===================================================================== *)

(** An opaque binary object ([Blob]). *)
Definition blob : Type := nat.

(** What the component reads of a [Response]. *)
Record response : Type := mkResponse {
  res_ok : bool;                     (* res.ok *)
  res_contentType : option string;   (* res.headers.get("content-type"); None is null *)
  res_json : option value;           (* res.json(): None when the promise rejects *)
  res_blob : option blob             (* res.blob(): None when the promise rejects *)
}.

(** The argument of [fetch]: a bare address, or the POST of the generative
    API, whose body is the JSON text of [body]. *)
Inductive request : Type :=
| GET (address : string)
| POST (address : string) (headers : list (string * string)) (body : value).

(** Errors thrown by the runtime, as opposed to [new Error(message)]. *)
Inductive native : Type :=
| FetchRejected                  (* the promise of fetch rejects *)
| BodyRejected                   (* res.json() or res.blob() rejects *)
| ParseFailed                    (* JSON.parse throws *)
| NullProperty (name : string)   (* a property of null is read *)
| NotAFunction (name : string).  (* a method the value does not have is called *)

Inductive exn : Type :=
| Error (message : string)
| Native (e : native).

Record ExtractionResult : Type := mkResult {
  downloadUrl : value;
  title : value;
  thumbnail : value;
  author : value;
  source : value
}.

(** The [useState] cells of the component. *)
Record AppState : Type := mkState {
  url : string;
  loading : bool;
  error : option string;
  result : option ExtractionResult;
  downloading : bool;
  aiLoading : bool;
  aiOutput : option value;
  aiMode : option string
}.

(** The setters the modelled functions call. *)
Inductive update : Type :=
| SetLoading (b : bool)
| SetError (e : option string)
| SetResult (r : option ExtractionResult)
| SetDownloading (b : bool)
| SetAiLoading (b : bool)
| SetAiOutput (o : option value)
| SetAiMode (m : option string).

Definition applyUpdate (s : AppState) (u : update) : AppState :=
  match u with
  | SetLoading b =>
      mkState (url s) b (error s) (result s) (downloading s) (aiLoading s) (aiOutput s) (aiMode s)
  | SetError e =>
      mkState (url s) (loading s) e (result s) (downloading s) (aiLoading s) (aiOutput s) (aiMode s)
  | SetResult r =>
      mkState (url s) (loading s) (error s) r (downloading s) (aiLoading s) (aiOutput s) (aiMode s)
  | SetDownloading b =>
      mkState (url s) (loading s) (error s) (result s) b (aiLoading s) (aiOutput s) (aiMode s)
  | SetAiLoading b =>
      mkState (url s) (loading s) (error s) (result s) (downloading s) b (aiOutput s) (aiMode s)
  | SetAiOutput o =>
      mkState (url s) (loading s) (error s) (result s) (downloading s) (aiLoading s) o (aiMode s)
  | SetAiMode m =>
      mkState (url s) (loading s) (error s) (result s) (downloading s) (aiLoading s) (aiOutput s) m
  end.

(** An anchor element at the moment it is clicked. *)
Record link : Type := mkLink {
  href : string;
  download : option string;
  target : option string;
  rel : option string
}.

Inductive logArg : Type :=
| LStr (s : string)
| LVal (v : value)
| LErr (e : exn).

(** What a run does to the outside world, in order. Fetches are numbered in
    the order they are issued. *)
Inductive event : Type :=
| EFetch (n : nat) (req : request)          (* fetch(req) is issued *)
| EJson (n : nat)                           (* .json() of the response of fetch n *)
| EBlob (n : nat)                           (* .blob() of the response of fetch n *)
| EParse (v : value)                        (* JSON.parse(v) *)
| EConsole (level : string) (args : list logArg)
| ESet (u : update)                         (* a useState setter is called *)
| EScroll (ref : string)                    (* setTimeout(() => ref.current?.scrollIntoView(..), 100) *)
| EObjectURL (b : blob)                     (* window.URL.createObjectURL(b) *)
| EClick (l : link)                         (* appendChild(l); l.click(); removeChild(l) *)
| ERevoke (blobUrl : string).               (* window.URL.revokeObjectURL(blobUrl) *)

(** The outside world as the component meets it. *)
Record Env : Type := mkEnv {
  net : nat -> request -> option response;  (* the n-th fetch: None when it rejects *)
  random : nat -> Q;                        (* the n-th Math.random() *)
  JSON_parse : value -> option value;       (* JSON.parse(v): None when it throws *)
  toText : value -> string;                 (* ToString, as a template literal applies it *)
  objectURL : blob -> string;               (* the address createObjectURL hands out *)
  nativeMessage : native -> string          (* the engine's message of a runtime error *)
}.

Record World : Type := mkWorld {
  state : AppState;
  trace : list event;
  fetches : nat;     (* fetches issued so far *)
  draws : nat        (* Math.random() calls so far *)
}.

Inductive Outcome (A : Type) : Type :=
| Ok (a : A)
| Throw (e : exn).
Arguments Ok {A} a.
Arguments Throw {A} e.

Definition M (A : Type) : Type := Env -> World -> Outcome A * World.

Definition ret {A} (a : A) : M A := fun _ w => (Ok a, w).

Definition bind {A B} (m : M A) (k : A -> M B) : M B :=
  fun env w =>
    match m env w with
    | (Ok a, w') => k a env w'
    | (Throw e, w') => (Throw e, w')
    end.

Declare Scope js_scope.
Delimit Scope js_scope with js.
Notation "x <- m ;; k" := (bind m (fun x => k))
  (at level 61, m at next level, right associativity) : js_scope.
Notation "m ;; k" := (bind m (fun _ => k))
  (at level 61, right associativity) : js_scope.
Local Open Scope js_scope.

Definition throw {A} (e : exn) : M A := fun _ w => (Throw e, w).

(** [try { m } catch (e) { h e }] *)
Definition tryCatch {A} (m : M A) (h : exn -> M A) : M A :=
  fun env w =>
    match m env w with
    | (Ok a, w') => (Ok a, w')
    | (Throw e, w') => h e env w'
    end.

(** [try { m } finally { fin }] *)
Definition tryFinally {A} (m : M A) (fin : M unit) : M A :=
  fun env w =>
    match m env w with
    | (o, w') =>
        match fin env w' with
        | (Ok _, w'') => (o, w'')
        | (Throw e, w'') => (Throw e, w'')
        end
    end.

Definition emit (e : event) : M unit :=
  fun _ w => (Ok tt, mkWorld (state w) (trace w ++ [e]) (fetches w) (draws w)).

Definition getState : M AppState := fun _ w => (Ok (state w), w).

(** A setter of [useState]. *)
Definition setState (u : update) : M unit :=
  fun _ w =>
    (Ok tt, mkWorld (applyUpdate (state w) u) (trace w ++ [ESet u]) (fetches w) (draws w)).

(** [await fetch(req)]: the response and the number of the fetch. *)
Definition fetch (req : request) : M (nat * response) :=
  fun env w =>
    let n := fetches w in
    let w' := mkWorld (state w) (trace w ++ [EFetch n req]) (S n) (draws w) in
    match net env n req with
    | Some r => (Ok (n, r), w')
    | None => (Throw (Native FetchRejected), w')
    end.

(** [await res.json()] *)
Definition json (res : nat * response) : M value :=
  emit (EJson (fst res)) ;;
  match res_json (snd res) with
  | Some v => ret v
  | None => throw (Native BodyRejected)
  end.

(** [await res.blob()] *)
Definition getBlob (res : nat * response) : M blob :=
  emit (EBlob (fst res)) ;;
  match res_blob (snd res) with
  | Some b => ret b
  | None => throw (Native BodyRejected)
  end.

(** [JSON.parse(v)] *)
Definition parseJSON (v : value) : M value :=
  emit (EParse v) ;;
  fun env w =>
    match JSON_parse env v with
    | Some r => (Ok r, w)
    | None => (Throw (Native ParseFailed), w)
    end.

(** [Math.random()] *)
Definition mathRandom : M Q :=
  fun env w =>
    (Ok (random env (draws w)), mkWorld (state w) (trace w) (fetches w) (S (draws w))).

Definition console (level : string) (args : list logArg) : M unit :=
  emit (EConsole level args).

(** [window.URL.createObjectURL(b)] *)
Definition createObjectURL (b : blob) : M string :=
  emit (EObjectURL b) ;; fun env w => (Ok (objectURL env b), w).

(** [data.name], which throws when [data] is null. *)
Definition readProp (data : value) (name : string) : M (option value) :=
  match data with
  | VNull => throw (Native (NullProperty name))
  | _ => ret (getProp data name)
  end.

(** [err.message] *)
Definition message (env : Env) (err : exn) : string :=
  match err with
  | Error m => m
  | Native e => nativeMessage env e
  end.

(** [a || b] where [b] is a value. *)
Definition valueOr (a : option value) (b : value) : value :=
  match a with
  | Some v => if truthy v then v else b
  | None => b
  end.

(** [a?.f]: [undefined] when [a] is null or undefined. *)
Definition optChain (a : option value) (f : value -> option value) : option value :=
  match a with
  | None | Some VNull => None
  | Some v => f v
  end.

(* ===================================================================== *)
(** ** The resilient fetcher *)
(* ===================================================================== *)

Definition corsProxyUrl (targetUrl : string) : string :=
  "https://corsproxy.io/?" ++ Str.encodeURIComponent targetUrl.

Definition allOriginsUrl (targetUrl : string) : string :=
  "https://api.allorigins.win/get?url=" ++ Str.encodeURIComponent targetUrl.

Definition fetchFailure : exn :=
  Error "Unable to fetch video info. Network might be blocked or URL is invalid.".

(** [contentType && contentType.includes("application/json")] *)
Definition isJsonContentType (contentType : option string) : bool :=
  match contentType with
  | Some ct => Str.nonEmpty ct && Str.includes ct "application/json"
  | None => false
  end.

(** Each of the three [try] blocks of [fetchWithBackups] either returns from
    the function ([Some v]) or falls through to what follows ([None]). *)

(** 1. Try Direct *)
Definition tryDirect (targetUrl : string) : M (option value) :=
  tryCatch
    (res <- fetch (GET targetUrl) ;;
     if res_ok (snd res) then
       let contentType := res_contentType (snd res) in
       if isJsonContentType contentType then
         v <- json res ;; ret (Some v)
       else ret None
     else ret None)
    (fun e =>
       console "warn" [LStr "Direct fetch failed, attempting Proxy 1..."] ;;
       ret None).

(** 2. Try CORS Proxy (corsproxy.io) *)
Definition tryCorsProxy (targetUrl : string) : M (option value) :=
  tryCatch
    (let proxyUrl := corsProxyUrl targetUrl in
     res <- fetch (GET proxyUrl) ;;
     if res_ok (snd res) then
       v <- json res ;; ret (Some v)
     else ret None)
    (fun e =>
       console "warn" [LStr "Proxy 1 failed, attempting Proxy 2..."] ;;
       ret None).

(** 3. Try AllOrigins *)
Definition tryAllOrigins (targetUrl : string) : M (option value) :=
  tryCatch
    (let proxyUrl := allOriginsUrl targetUrl in
     res <- fetch (GET proxyUrl) ;;
     if res_ok (snd res) then
       data <- json res ;;
       contents <- readProp data "contents" ;;
       match contents with
       | Some c =>
           if truthy c then
             tryCatch
               (v <- parseJSON c ;; ret (Some v))
               (fun parseError =>
                  console "error" [LStr "Failed to parse AllOrigins response"] ;;
                  ret None)
           else ret None
       | None => ret None
       end
     else ret None)
    (fun e =>
       console "warn" [LStr "All proxies failed."] ;;
       ret None).

Definition fetchWithBackups (targetUrl : string) : M value :=
  r1 <- tryDirect targetUrl ;;
  match r1 with
  | Some v => ret v
  | None =>
      r2 <- tryCorsProxy targetUrl ;;
      match r2 with
      | Some v => ret v
      | None =>
          r3 <- tryAllOrigins targetUrl ;;
          match r3 with
          | Some v => ret v
          | None => throw fetchFailure
          end
      end
  end.

(* ===================================================================== *)
(** ** The query action *)
(* ===================================================================== *)

Definition apiEndpoint (url : string) : string :=
  "https://tele-social.vercel.app/down?url=" ++ Str.encodeURIComponent url.

Definition extractionFailure : exn :=
  Error "Could not find a valid video link. The link might be private or an image.".

(** The setters called before the [try] block. *)
Definition resetForNewQuery : M unit :=
  setState (SetLoading true) ;;
  setState (SetError None) ;;
  setState (SetResult None) ;;
  setState (SetAiOutput None).

(** The component closes over [url]: it is read once, from the state the
    action is started in. *)
Definition fetchVideoInfo : M unit :=
  s <- getState ;;
  if negb (Str.nonEmpty (Str.trim (url s))) then ret tt
  else
    resetForNewQuery ;;
    tryFinally
      (tryCatch
         (data <- fetchWithBackups (apiEndpoint (url s)) ;;
          console "log" [LStr "API Response:"; LVal data] ;;
          let downloadUrl := findDownloadLink data in
          t <- readProp data "title" ;;
          let title :=
            valueOr t (valueOr (getProp data "text")
              (valueOr (getProp data "caption") (VStr "Downloaded Video"))) in
          let thumbnail :=
            valueOr (getProp data "thumbnail") (valueOr (getProp data "image")
              (valueOr (getProp data "cover") VNull)) in
          let author := valueOr (getProp data "author") (VStr "Unknown") in
          match downloadUrl with
          | Some d =>
              if truthy d then
                setState (SetResult (Some (mkResult d title thumbnail author data))) ;;
                emit (EScroll "resultRef")
              else throw extractionFailure
          | None => throw extractionFailure
          end)
         (fun err =>
            console "error" [LErr err] ;;
            fun env =>
              setState
                (SetError
                   (Some (Str.orElse (message env err)
                            "An unexpected error occurred. Please check the URL.")))
                env))
      (setState (SetLoading false)).

(* ===================================================================== *)
(** ** The generative-text action *)
(* ===================================================================== *)

(** [const apiKey = ""] *)
Definition apiKey : string := "".

Definition captionPrompt (title author : string) : string :=
  "You are a social media expert. Generate a catchy, engaging caption and 15 relevant viral hashtags for a video titled "
  ++ String (ascii_of_nat 34) title ++ String (ascii_of_nat 34) " by creator "
  ++ String (ascii_of_nat 34) author ++ String (ascii_of_nat 34)
       ". The platform is likely a short-form video site. Return the caption first, then a line break, then the hashtags.".

Definition ideasPrompt (title author : string) : string :=
  "You are a creative director. Based on the video titled "
  ++ String (ascii_of_nat 34) title ++ String (ascii_of_nat 34) " by creator "
  ++ String (ascii_of_nat 34) author ++ String (ascii_of_nat 34)
       ", suggest 5 unique and engaging follow-up video ideas or remix concepts that a creator could make next. Format as a numbered list with short descriptions.".

Definition generativeUrl (key : string) : string :=
  "https://generativelanguage.googleapis.com/v1beta/models/gemini-2.5-flash-preview-09-2025:generateContent?key="
  ++ key.

(** [{ contents: [{ parts: [{ text: prompt }] }] }] *)
Definition generativeBody (prompt : string) : value :=
  VObj [("contents", VArr [VObj [("parts", VArr [VObj [("text", VStr prompt)]])]])].

Definition aiFallbackText : string :=
  "AI feature requires a valid API Key in src/App.jsx code. Please add it to use this feature.".

(** The prompt of each mode; any other mode leaves it empty. *)
Definition aiPrompt (env : Env) (mode : string) (r : ExtractionResult) : string :=
  if (mode =? "caption")%string then
    captionPrompt (toText env (title r)) (toText env (author r))
  else if (mode =? "ideas")%string then
    ideasPrompt (toText env (title r)) (toText env (author r))
  else "".

Definition aiRequest (key prompt : string) : request :=
  POST (generativeUrl key) [("Content-Type", "application/json")] (generativeBody prompt).

(** [data.candidates?.[0]?.content?.parts?.[0]?.text], given what
    [data.candidates] evaluated to. *)
Definition candidateText (candidates : option value) : option value :=
  optChain
    (optChain
       (optChain
          (optChain (optChain candidates getIndex0)
             (fun v => getProp v "content"))
          (fun v => getProp v "parts"))
       getIndex0)
    (fun v => getProp v "text").

(** [generateAIContent] with the constant [apiKey] as a parameter, so that
    the paths behind the credential test can be stated. The component closes
    over [result]: it is read once, from the state the action is started in. *)
Definition generateAIContentWith (key : string) (mode : string) : M unit :=
  s <- getState ;;
  match result s with
  | None => ret tt
  | Some r =>
      setState (SetAiLoading true) ;;
      setState (SetAiMode (Some mode)) ;;
      setState (SetAiOutput None) ;;
      tryFinally
        (tryCatch
           (prompt <- (fun env => ret (aiPrompt env mode r) env) ;;
            if negb (Str.nonEmpty key) then throw (Error "API Key is missing in the code.")
            else
              response <- fetch (aiRequest key prompt) ;;
              if negb (res_ok (snd response)) then
                throw (Error "AI Generation failed. Please try again.")
              else
                data <- json response ;;
                candidates <- readProp data "candidates" ;;
                let text := candidateText candidates in
                match text with
                | Some t =>
                    if truthy t then
                      setState (SetAiOutput (Some t)) ;;
                      emit (EScroll "aiRef")
                    else throw (Error "No output from AI.")
                | None => throw (Error "No output from AI.")
                end)
           (fun err =>
              console "error" [LStr "Gemini API Error:"; LErr err] ;;
              setState (SetAiOutput (Some (VStr aiFallbackText)))))
        (setState (SetAiLoading false))
  end.

Definition generateAIContent (mode : string) : M unit :=
  generateAIContentWith apiKey mode.

(* ===================================================================== *)
(** ** The download orchestrator *)
(* ===================================================================== *)

(** The character class of the sanitising pattern: slash, backslash, colon,
    star, question mark, double quote, angle brackets and bar. *)
Definition illegalChars : list ascii :=
  [ascii_of_nat 47; ascii_of_nat 92; ":"; "*"; "?"; ascii_of_nat 34; "<"; ">"; "|"]%char.

(** The rendering of an integer in a template literal. *)
Definition ofZ (z : Z) : string := NilZero.string_of_int (Z.to_int z).

(** [Math.floor(r * 10000)] with exact arithmetic. *)
Definition uniqueSuffix (r : Q) : Z := Qfloor (r * 10000)%Q.

(** [sanitizedName.substring(0, 50).trim() || 'video'] *)
Definition baseNameOf (sanitizedName : string) : string :=
  Str.orElse (Str.trim (Str.substring sanitizedName 0 50)) "video".

(** The file name the three strategies compute from a string, given the
    value [r] that [Math.random()] returned. *)
Definition safeFileName (fileName : string) (r : Q) : string :=
  let sanitizedName := Str.removeClass illegalChars (Str.orElse fileName "video") in
  let baseName := baseNameOf sanitizedName in
  baseName ++ "_" ++ ofZ (uniqueSuffix r) ++ ".mp4".

(** [(fileName || 'video').replace(pattern, '')]. The caller passes
    [result.title], which is whatever the upstream document held: [replace]
    is a method of strings, and calling it on another value throws. *)
Definition sanitize (fileName : value) : M string :=
  match valueOr (Some fileName) (VStr "video") with
  | VStr s => ret (Str.removeClass illegalChars s)
  | _ => throw (Native (NotAFunction "replace"))
  end.

(** The four lines that each strategy repeats. *)
Definition computeFileName (fileName : value) : M string :=
  sanitizedName <- sanitize fileName ;;
  let baseName := baseNameOf sanitizedName in
  r <- mathRandom ;;
  ret (baseName ++ "_" ++ ofZ (uniqueSuffix r) ++ ".mp4").

Definition click (l : link) : M unit := emit (EClick l).

Definition triggerBrowserDownload (blobUrl fileName : string) : M unit :=
  click (mkLink blobUrl (Some fileName) None None) ;;
  emit (ERevoke blobUrl).

(** Method 3: Fallback (Video opens in new tab) *)
Definition newTabFallback (fileUrl : string) (fileName : value) : M unit :=
  name <- computeFileName fileName ;;
  click (mkLink fileUrl (Some name) (Some "_blank") (Some "noopener noreferrer")).

Definition handleDownload (fileUrl : string) (fileName : value) : M unit :=
  setState (SetDownloading true) ;;
  tryFinally
    (tryCatch
       (safeName <- computeFileName fileName ;;
        response <- fetch (GET fileUrl) ;;
        if negb (res_ok (snd response)) then throw (Error "Direct fetch failed")
        else
          b <- getBlob response ;;
          blobUrl <- createObjectURL b ;;
          triggerBrowserDownload blobUrl safeName)
       (fun e =>
          console "warn" [LStr "Direct download blocked (CORS), attempting Proxy Tunnel..."] ;;
          tryCatch
            (let proxyUrl := corsProxyUrl fileUrl in
             response <- fetch (GET proxyUrl) ;;
             if negb (res_ok (snd response)) then throw (Error "Proxy fetch failed")
             else
               b <- getBlob response ;;
               blobUrl <- createObjectURL b ;;
               safeName <- computeFileName fileName ;;
               triggerBrowserDownload blobUrl safeName)
            (fun proxyError =>
               console "warn"
                 [LStr "Proxy tunnel failed, falling back to new tab."; LErr proxyError] ;;
               newTabFallback fileUrl fileName)))
    (setState (SetDownloading false)).

(* ===================================================================== *)
(** ** Notions used to state the properties *)
(* ===================================================================== *)

(** What is stored under a skipped key, at any depth, is overwritten by [f];
    everything else is kept. *)
Fixpoint overwriteSkipped (f : string -> value -> value) (v : value) : value :=
  match v with
  | VArr items => VArr (map (overwriteSkipped f) items)
  | VObj props =>
      VObj (map (fun kv =>
                   (fst kv,
                    if isSkippedKey (fst kv) then f (fst kv) (snd kv)
                    else overwriteSkipped f (snd kv)))
                props)
  | _ => v
  end.

(** The recursive search of step 4, over the properties of an object and
    over the items of an array. *)
Fixpoint searchProps (ps : list (string * value)) : option value :=
  match ps with
  | [] => None
  | (key, v) :: ps' =>
      if isSkippedKey key then searchProps ps'
      else
        match findDownloadLink v with
        | Some found => if truthy found then Some found else searchProps ps'
        | None => searchProps ps'
        end
  end.

Fixpoint searchItems (vs : list value) : option value :=
  match vs with
  | [] => None
  | v :: vs' =>
      match findDownloadLink v with
      | Some found => if truthy found then Some found else searchItems vs'
      | None => searchItems vs'
      end
  end.

(** [s] ends in [suffix], letter case ignored. *)
Definition endsWithIgnoreCase (s suffix : string) : Prop :=
  exists p t, s = p ++ t /\ Str.toLowerCase t = Str.toLowerCase suffix.

(** [s] ends in a dot and one of the static-image extensions. *)
Definition hasImageSuffix (s : string) : Prop :=
  exists ext, In ext imageExtensions /\ endsWithIgnoreCase s ("." ++ ext).

(** The world once [req] has been issued as the next fetch. *)
Definition issued (w : World) (req : request) : World :=
  mkWorld (state w) (trace w ++ [EFetch (fetches w) req]) (S (fetches w)) (draws w).

(** The requests of a trace, in the order they were issued. *)
Fixpoint requests (evs : list event) : list request :=
  match evs with
  | [] => []
  | EFetch _ req :: rest => req :: requests rest
  | _ :: rest => requests rest
  end.


(** What [fetchWithBackups] does once the direct strategy has fallen
    through. *)
Definition proxyStrategies (targetUrl : string) : M value :=
  r2 <- tryCorsProxy targetUrl ;;
  match r2 with
  | Some v => ret v
  | None =>
      r3 <- tryAllOrigins targetUrl ;;
      match r3 with
      | Some v => ret v
      | None => throw fetchFailure
      end
  end.

(** What one strategy does: it issues exactly one request, never throws,
    calls no setter, and reads no body but that of its own response. *)
Definition strategyRun (strategy : M (option value)) (req : request)
    (env : Env) (w : World) : Prop :=
  exists (o : option value) (evs : list event),
    strategy env w =
      (Ok o, mkWorld (state w) (trace (issued w req) ++ evs)%list
               (S (fetches w)) (draws w)) /\
    requests evs = [] /\
    (forall m, In (EJson m) evs -> m = fetches w) /\
    (forall u, ~ In (ESet u) evs).

(** Every code unit of [s] is white space (so also when [s] is empty). *)
Fixpoint allWhiteSpace (s : string) : bool :=
  match s with
  | EmptyString => true
  | String c s' => Str.isWhiteSpace c && allWhiteSpace s'
  end.




(** Every code unit below 256. *)
Definition allAscii : list ascii := map ascii_of_nat (seq 0 256).

(** The setters of the AI cells. *)
Definition isAiUpdate (u : update) : bool :=
  match u with
  | SetAiLoading _ | SetAiOutput _ | SetAiMode _ => true
  | _ => false
  end.


(* ===================================================================== *)
(** ** Concrete worlds for the examples *)
(* ===================================================================== *)

Definition idleState (address : string) : AppState :=
  mkState address false None None false false None None.

Definition freshWorld (s : AppState) : World := mkWorld s [] 0 0.

(** An outside world given by the answers to the first fetches, in order;
    every later fetch rejects. [JSON.parse] accepts nothing and
    [Math.random] always returns one third. *)
Definition scriptedEnv (answers : list (option response)) : Env :=
  mkEnv (fun n _ => nth n answers None)
        (fun _ => (1 # 3)%Q)
        (fun _ => None)
        (fun v => match v with VStr s => s | _ => "" end)
        (fun _ => "blob:multidown")
        (fun _ => "Failed").

Definition htmlPage : response := mkResponse true (Some "text/html") None None.

Definition brokenEnvelope : response :=
  mkResponse true (Some "application/json")
    (Some (VObj [("contents", VStr "not valid json")])) None.

(** A world that still shows the outcome of an earlier query. *)
Definition staleResult : ExtractionResult :=
  mkResult (VStr "https://cdn/old.mp4") (VStr "Old") VNull (VStr "Unknown") VNull.

Definition staleWorld : World :=
  freshWorld
    (mkState "https://tiktok.com/@a/video/123" false (Some "old error")
       (Some staleResult) false false (Some (VStr "old caption")) (Some "caption")).

Definition coolDocument : value :=
  VObj [("play", VStr "https://cdn/v.mp4"); ("title", VStr "Cool"); ("author", VStr "a")].

Definition jsonAnswer (v : value) : response :=
  mkResponse true (Some "application/json") (Some v) None.

(* ===================================================================== *)
(** ** Further notions: what the rest of the component does *)
(* ===================================================================== *)

(** The strings the traversal of [findDownloadLink] can reach: every string
    of the document that is not stored under a skipped key. *)
Fixpoint reachable (v : value) : list string :=
  match v with
  | VStr s => [s]
  | VArr items => flat_map reachable items
  | VObj props =>
      flat_map (fun kv => if isSkippedKey (fst kv) then [] else reachable (snd kv)) props
  | _ => []
  end.

(** The ten keys read directly on an object, in the order they are tried. *)
Definition directKeys : list string := (priorityKeys ++ genericKeys)%list.

(** What each strategy of the fetcher makes of the answer to its request
    ([None]: the request rejected). *)
Definition directAnswer (answer : option response) : option value :=
  match answer with
  | Some r => if res_ok r && isJsonContentType (res_contentType r) then res_json r else None
  | None => None
  end.

Definition corsProxyAnswer (answer : option response) : option value :=
  match answer with
  | Some r => if res_ok r then res_json r else None
  | None => None
  end.

Definition allOriginsAnswer (env : Env) (answer : option response) : option value :=
  match answer with
  | Some r =>
      if res_ok r then
        match res_json r with
        | Some data =>
            match getProp data "contents" with
            | Some c => if truthy c then JSON_parse env c else None
            | None => None
            end
        | None => None
        end
      else None
  | None => None
  end.

(** The document the fetcher returns, if any, and the number of requests it
    takes, when the first request is the [n]-th. *)
Definition firstAnswer (env : Env) (n : nat) (targetUrl : string) : option value * nat :=
  match directAnswer (net env n (GET targetUrl)) with
  | Some v => (Some v, 1)
  | None =>
      match corsProxyAnswer (net env (S n) (GET (corsProxyUrl targetUrl))) with
      | Some v => (Some v, 2)
      | None =>
          (allOriginsAnswer env (net env (S (S n)) (GET (allOriginsUrl targetUrl))), 3)
      end
  end.

(** The three requests of the fetcher, in order. *)
Definition strategyRequests (targetUrl : string) : list request :=
  [GET targetUrl; GET (corsProxyUrl targetUrl); GET (allOriginsUrl targetUrl)].

(** The result [fetchVideoInfo] stores for a document [data] in which it
    found the link [d]. *)
Definition extractionResult (data d : value) : ExtractionResult :=
  mkResult d
    (valueOr (getProp data "title") (valueOr (getProp data "text")
       (valueOr (getProp data "caption") (VStr "Downloaded Video"))))
    (valueOr (getProp data "thumbnail") (valueOr (getProp data "image")
       (valueOr (getProp data "cover") VNull)))
    (valueOr (getProp data "author") (VStr "Unknown"))
    data.

Definition unexpectedError : string :=
  "An unexpected error occurred. Please check the URL.".

(** The result and the error a query ends with, given what the fetcher
    returned or threw. *)
Definition queryOutcome (env : Env) (fetched : Outcome value)
    : option ExtractionResult * option string :=
  match fetched with
  | Throw e => (None, Some (Str.orElse (message env e) unexpectedError))
  | Ok VNull =>
      (None, Some (Str.orElse (nativeMessage env (NullProperty "title")) unexpectedError))
  | Ok data =>
      match findDownloadLink data with
      | Some d => (Some (extractionResult data d), None)
      | None => (None, Some (message env extractionFailure))
      end
  end.

(** What the fetcher does for the query of the world [w], once the cells
    have been cleared. *)
Definition fetchedFor (env : Env) (w : World) : Outcome value :=
  fst (fetchWithBackups (apiEndpoint (url (state w))) env (snd (resetForNewQuery env w))).

(** The links clicked, the binary objects given an address, and the
    addresses released, in the order of the trace. *)
Fixpoint clicks (evs : list event) : list link :=
  match evs with
  | [] => []
  | EClick l :: rest => l :: clicks rest
  | _ :: rest => clicks rest
  end.

Fixpoint createdBlobs (evs : list event) : list blob :=
  match evs with
  | [] => []
  | EObjectURL b :: rest => b :: createdBlobs rest
  | _ :: rest => createdBlobs rest
  end.

Fixpoint revokedURLs (evs : list event) : list string :=
  match evs with
  | [] => []
  | ERevoke u :: rest => u :: revokedURLs rest
  | _ :: rest => revokedURLs rest
  end.

(** The binary object a retrieval yields: the fetch resolves, the status is
    a success and the body can be read. *)
Definition binaryBlob (env : Env) (n : nat) (address : string) : option blob :=
  match net env n (GET address) with
  | Some r => if res_ok r then res_blob r else None
  | None => None
  end.

(** The link the orchestrator clicks and the requests it issues, for a
    string name, when its first request is the [n]-th and its first random
    draw the [d]-th. *)
Definition chosenLink (env : Env) (n d : nat) (fileUrl fileName : string) : link :=
  match binaryBlob env n fileUrl with
  | Some b => mkLink (objectURL env b) (Some (safeFileName fileName (random env d))) None None
  | None =>
      match binaryBlob env (S n) (corsProxyUrl fileUrl) with
      | Some b =>
          mkLink (objectURL env b) (Some (safeFileName fileName (random env (S d)))) None None
      | None =>
          mkLink fileUrl (Some (safeFileName fileName (random env (S d))))
            (Some "_blank") (Some "noopener noreferrer")
      end
  end.

Definition downloadRequests (env : Env) (n : nat) (fileUrl : string) : list request :=
  match binaryBlob env n fileUrl with
  | Some _ => [GET fileUrl]
  | None => [GET fileUrl; GET (corsProxyUrl fileUrl)]
  end.

(** Every code unit of [s] satisfies [p]. *)
Fixpoint allChars (p : ascii -> bool) (s : string) : bool :=
  match s with
  | EmptyString => true
  | String c s' => p c && allChars p s'
  end.


(** The value of a hexadecimal digit, and a decoding of percent escapes; the
    component never decodes, the decoding serves to show that its encoding
    loses nothing. *)
Definition hexValue (c : ascii) : N :=
  let n := N_of_ascii c in
  if (n <? 58)%N then (n - 48)%N else (n - 55)%N.

Fixpoint percentDecode (s : string) : string :=
  match s with
  | EmptyString => EmptyString
  | String c rest =>
      if Ascii.eqb c "%" then
        match rest with
        | String h1 (String h2 rest2) =>
            let b := (hexValue h1 * 16 + hexValue h2)%N in
            if (b <? 128)%N then String (ascii_of_N b) (percentDecode rest2)
            else
              match rest2 with
              | String _ (String h3 (String h4 rest4)) =>
                  let b' := (hexValue h3 * 16 + hexValue h4)%N in
                  String (ascii_of_N ((b - 192) * 64 + (b' - 128))) (percentDecode rest4)
              | _ => String c (percentDecode rest)
              end
        | _ => String c (percentDecode rest)
        end
      else String c (percentDecode rest)
  end.

(** A code unit that [Str.encodeURIComponent] may produce. *)
Definition isEncodedChar (c : ascii) : bool := Str.isUnreserved c || Ascii.eqb c "%".

(** The delimiters of an address that an embedded target must not contain. *)
Definition addressDelimiters : list ascii :=
  ["&"; "="; "?"; "#"; "/"; ":"; " "; "+"]%char.

Definition isDelimiter (c : ascii) : bool := existsb (Ascii.eqb c) addressDelimiters.

(* ===================================================================== *)
(** ** The synchronous handlers and what is rendered *)
(* ===================================================================== *)

Definition withUrl (s : AppState) (u : string) : AppState :=
  mkState u (loading s) (error s) (result s) (downloading s) (aiLoading s)
    (aiOutput s) (aiMode s).

(** [if (x)] on a cell that holds null or a string. *)
Definition truthyText (x : option string) : bool :=
  match x with
  | Some m => Str.nonEmpty m
  | None => false
  end.

(** [handleInputChange]: [setUrl(e.target.value); if (error) setError(null)],
    [error] being the cell as rendered. *)
Definition handleInputChange (typed : string) (s : AppState) : AppState :=
  let s1 := withUrl s typed in
  if truthyText (error s) then applyUpdate s1 (SetError None) else s1.

(** [handlePaste]: the clipboard text becomes the query; when reading the
    clipboard is denied ([None]) the error is swallowed. *)
Definition handlePaste (clipboard : option string) (s : AppState) : AppState :=
  match clipboard with
  | Some text => withUrl s text
  | None => s
  end.

(** The clear button of the input: [setUrl('')]. *)
Definition clearQuery (s : AppState) : AppState := withUrl s "".

(** What the JSX shows of the state: the conditions of the conditional
    blocks and the [disabled] attributes. *)
Record View : Type := mkView {
  clearShown : bool;                   (* url && <button> *)
  submitDisabled : bool;               (* disabled={loading || !url} *)
  submitSpinner : bool;                (* loading ? <Loader2> : ... *)
  errorShown : option string;          (* error && <p>{error}</p> *)
  resultShown : option ExtractionResult;  (* result && ... *)
  thumbnailShown : bool;               (* result.thumbnail ? <img> : <Film> *)
  downloadDisabled : bool;             (* disabled={downloading} *)
  aiDisabled : bool;                   (* disabled={aiLoading} *)
  captionSpinner : bool;               (* aiLoading && aiMode === 'caption' *)
  ideasSpinner : bool;                 (* aiLoading && aiMode === 'ideas' *)
  aiPanel : option (string * value)    (* aiOutput && heading and text, inside the result block *)
}.

Definition isMode (m : option string) (name : string) : bool :=
  match m with
  | Some x => (x =? name)%string
  | None => false
  end.

Definition render (s : AppState) : View :=
  mkView
    (Str.nonEmpty (url s))
    (loading s || negb (Str.nonEmpty (url s)))
    (loading s)
    (if truthyText (error s) then error s else None)
    (result s)
    (match result s with Some r => truthy (thumbnail r) | None => false end)
    (downloading s)
    (aiLoading s)
    (aiLoading s && isMode (aiMode s) "caption")
    (aiLoading s && isMode (aiMode s) "ideas")
    (match result s, aiOutput s with
     | Some _, Some o =>
         if truthy o then
           Some (if isMode (aiMode s) "caption" then "AI Generated Caption"
                 else "Creative Ideas", o)
         else None
     | _, _ => None
     end).

(** The text the generative API yields for the [n]-th request, if the call
    goes through and the answer holds a truthy text. *)
Definition generatedText (env : Env) (n : nat) (key mode : string) (r : ExtractionResult)
    : option value :=
  if Str.nonEmpty key then
    match net env n (aiRequest key (aiPrompt env mode r)) with
    | Some response =>
        if res_ok response then
          match res_json response with
          | Some data =>
              match candidateText (getProp data "candidates") with
              | Some t => if truthy t then Some t else None
              | None => None
              end
          | None => None
          end
        else None
    | None => None
    end
  else None.

(** What ends up in the AI output cell. *)
Definition aiShown (env : Env) (n : nat) (key mode : string) (r : ExtractionResult) : value :=
  match generatedText env n key mode r with
  | Some t => t
  | None => VStr aiFallbackText
  end.

(** An answer of the generative API in its documented shape. *)
Definition generatedDocument (text : string) : value :=
  VObj [("candidates",
         VArr [VObj [("content", VObj [("parts", VArr [VObj [("text", VStr text)]])])]])].
Example startsWith_http : Str.startsWith "https://x/a.mp4" "http" = true.
Proof. reflexivity. Qed.

Example trim_both : Str.trim "  a b  " = "a b".
Proof. reflexivity. Qed.

Example ofZ_suffix : ofZ 0 = "0" /\ ofZ 9999 = "9999".
Proof. split; reflexivity. Qed.

Example trim_nbsp_tab : Str.trim (String (ascii_of_nat 160) (String (ascii_of_nat 9) "x ")) = "x".
Proof. reflexivity. Qed.

Example toLowerCase_author : Str.toLowerCase "AuThOr" = "author".
Proof. reflexivity. Qed.

Example substring_swaps : Str.substring "abcdef" 4 1 = "bcd".
Proof. reflexivity. Qed.

Example removeClass_title :
  Str.removeClass illegalChars "My/Video:Clip*Name?" = "MyVideoClipName".
Proof. reflexivity. Qed.

Example includes_json :
  Str.includes "application/json; charset=utf-8" "application/json" = true /\
  Str.includes "text/html" "application/json" = false.
Proof. split; reflexivity. Qed.

Example isSkippedKey_case : isSkippedKey "Thumbnail" = true /\ isSkippedKey "video" = false.
Proof. split; reflexivity. Qed.

Example find_in_array :
  findDownloadLink
    (VArr [VStr "https://x/a.png"; VObj [("avatars", VStr "https://x/b.mp4")];
           VObj [("q", VStr "https://x/c.mp4")]])
  = Some (VStr "https://x/c.mp4").
Proof. reflexivity. Qed.

Example encode_url :
  Str.encodeURIComponent "https://x/a b?c=d" = "https%3A%2F%2Fx%2Fa%20b%3Fc%3Dd".
Proof. reflexivity. Qed.

Example isVideoUrl_mp4 : isVideoUrl (VStr "https://x/a.mp4") = true.
Proof. reflexivity. Qed.

Example isVideoUrl_JPG : isVideoUrl (VStr "https://x/a.JpG") = false.
Proof. reflexivity. Qed.

(** Only the four letters [http] are tested, and only the end of the string
    is compared with the image extensions. *)
Example isVideoUrl_prefix_only :
  isVideoUrl (VStr "httpfoo") = true /\
  isVideoUrl (VStr "HTTPS://x/a.mp4") = false /\
  isVideoUrl (VStr "https://x/a.jpg?size=big") = true.
Proof. repeat split; reflexivity. Qed.

Example find_play :
  findDownloadLink
    (VObj [("play", VStr "https://cdn/v.mp4"); ("title", VStr "Cool"); ("author", VStr "a")])
  = Some (VStr "https://cdn/v.mp4").
Proof. reflexivity. Qed.

Example find_nested_author :
  findDownloadLink (VObj [("video", VObj [("author", VStr "https://evil/a.mp4")])]) = None.
Proof. reflexivity. Qed.

(* ===================================================================== *)
(** ** Properties of the link extractor *)
(* ===================================================================== *)

(** C1. A document with [hd] = "https://x/a.mp4" and [thumbnail.url] =
    "https://x/a.jpg" yields "https://x/a.mp4": the priority-key pass already
    returns it, before the generic keys and the recursive search, so the
    thumbnail subtree is not the source of the result. *)
Theorem findDownloadLink_hd_wins (props tprops : list (string * value)) :
  lookup "hd" props = Some (VStr "https://x/a.mp4") ->
  lookup "thumbnail" props = Some (VObj tprops) ->
  lookup "url" tprops = Some (VStr "https://x/a.jpg") ->
  firstVideoKey priorityKeys (VObj props) = Some (VStr "https://x/a.mp4") /\
  findDownloadLink (VObj props) = Some (VStr "https://x/a.mp4").
Proof.
  intros Hhd _ _.
  assert (Hfirst : firstVideoKey priorityKeys (VObj props) = Some (VStr "https://x/a.mp4")).
  { unfold priorityKeys; cbn [firstVideoKey getProp]. rewrite Hhd. reflexivity. }
  split; [exact Hfirst|].
  cbn [findDownloadLink truthy negb]. rewrite Hfirst. reflexivity.
Qed.

Lemma findDownloadLink_hd_wins_witness :
  findDownloadLink
    (VObj [("thumbnail", VObj [("url", VStr "https://x/a.jpg")]);
           ("url", VStr "https://x/other.mp4");
           ("hd", VStr "https://x/a.mp4")])
  = Some (VStr "https://x/a.mp4").
Proof.
  apply (findDownloadLink_hd_wins
           [("thumbnail", VObj [("url", VStr "https://x/a.jpg")]);
            ("url", VStr "https://x/other.mp4");
            ("hd", VStr "https://x/a.mp4")]
           [("url", VStr "https://x/a.jpg")]); reflexivity.
Defined.
Lemma truthy_overwriteSkipped f v : truthy (overwriteSkipped f v) = truthy v.
Proof. destruct v; reflexivity. Qed.

Lemma isVideoUrl_overwriteSkipped f v :
  isVideoUrl (overwriteSkipped f v) = isVideoUrl v.
Proof. destruct v; reflexivity. Qed.

Lemma isVideoUrl_is_string v : isVideoUrl v = true -> exists s, v = VStr s.
Proof. destruct v; simpl; try discriminate. intros _. now exists s. Qed.

Lemma lookup_overwriteSkipped f key props :
  isSkippedKey key = false ->
  lookup key
    (map (fun kv =>
            (fst kv,
             if isSkippedKey (fst kv) then f (fst kv) (snd kv)
             else overwriteSkipped f (snd kv)))
         props)
  = option_map (overwriteSkipped f) (lookup key props).
Proof.
  intros Hkey. induction props as [|[k v] rest IH]; simpl; [reflexivity|].
  destruct (String.eqb_spec k key) as [->|Hne].
  - now rewrite Hkey.
  - exact IH.
Qed.

Lemma firstVideoKey_overwriteSkipped f keys obj :
  forallb (fun k => negb (isSkippedKey k)) keys = true ->
  firstVideoKey keys (overwriteSkipped f obj) = firstVideoKey keys obj.
Proof.
  induction keys as [|key rest IH]; simpl; [reflexivity|].
  intros H. apply andb_true_iff in H as [Hk Hrest].
  apply negb_true_iff in Hk. specialize (IH Hrest).
  destruct obj; simpl in *; try exact IH.
  rewrite lookup_overwriteSkipped by exact Hk.
  destruct (lookup key props) as [v|]; simpl; [|exact IH].
  rewrite truthy_overwriteSkipped, isVideoUrl_overwriteSkipped.
  destruct (truthy v && isVideoUrl v) eqn:E; [|exact IH].
  apply andb_true_iff in E as [_ E].
  destruct (isVideoUrl_is_string _ E) as [s ->]. reflexivity.
Qed.

Lemma findDownloadLink_VObj props :
  findDownloadLink (VObj props) =
  match firstVideoKey priorityKeys (VObj props) with
  | Some v => Some v
  | None =>
      match firstVideoKey genericKeys (VObj props) with
      | Some v => Some v
      | None => searchProps props
      end
  end.
Proof.
  cbn [findDownloadLink truthy negb].
  destruct (firstVideoKey priorityKeys (VObj props)); [reflexivity|].
  destruct (firstVideoKey genericKeys (VObj props)); [reflexivity|].
  induction props as [|[k v] ps IH]; [reflexivity|].
  cbn [searchProps]. rewrite <- IH. reflexivity.
Qed.

Lemma findDownloadLink_VArr items :
  findDownloadLink (VArr items) = searchItems items.
Proof.
  cbn [findDownloadLink truthy negb].
  change (firstVideoKey priorityKeys (VArr items)) with (@None value).
  change (firstVideoKey genericKeys (VArr items)) with (@None value).
  induction items as [|v vs IH]; [reflexivity|].
  cbn [searchItems]. rewrite <- IH. reflexivity.
Qed.

Lemma findDownloadLink_overwriteSkipped f v :
  findDownloadLink (overwriteSkipped f v) = findDownloadLink v.
Proof.
  induction v as [| b | x | s | items IH | props IH] using value_nested_ind;
    try reflexivity.
  - cbn [overwriteSkipped]. rewrite !findDownloadLink_VArr.
    induction IH as [|v vs Hv _ IHvs]; [reflexivity|].
    cbn [map searchItems]. rewrite Hv, IHvs. reflexivity.
  - change (findDownloadLink (overwriteSkipped f (VObj props)) =
            findDownloadLink (VObj props)).
    pose proof (firstVideoKey_overwriteSkipped f priorityKeys (VObj props) eq_refl) as Hp.
    pose proof (firstVideoKey_overwriteSkipped f genericKeys (VObj props) eq_refl) as Hg.
    cbn [overwriteSkipped] in *. rewrite !findDownloadLink_VObj, Hp, Hg.
    destruct (firstVideoKey priorityKeys (VObj props)); [reflexivity|].
    destruct (firstVideoKey genericKeys (VObj props)); [reflexivity|].
    clear Hp Hg.
    induction IH as [|[k v] ps Hv _ IHps]; [reflexivity|].
    cbn [map searchProps fst snd]. rewrite IHps.
    destruct (isSkippedKey k); [reflexivity|].
    cbn [snd] in Hv. rewrite Hv. reflexivity.
Qed.

(** C3. The extractor never looks under a skipped key ([thumbnail],
    [image], [cover], [poster], [avatars], [author], letter case ignored), at
    any depth: whatever is stored there can be replaced by anything without
    changing the result. In particular [{ video: { author: url } }] yields
    null although the string under [author] passes the candidate test. *)
Theorem findDownloadLink_skips_excluded_keys :
  (forall (f : string -> value -> value) (doc : value),
      findDownloadLink (overwriteSkipped f doc) = findDownloadLink doc) /\
  isVideoUrl (VStr "https://evil/a.mp4") = true /\
  findDownloadLink (VObj [("video", VObj [("author", VStr "https://evil/a.mp4")])]) = None.
Proof.
  split; [exact findDownloadLink_overwriteSkipped|].
  split; reflexivity.
Qed.

(* ===================================================================== *)
(** ** The candidate test *)
(* ===================================================================== *)

Lemma allAscii_complete (c : ascii) : In c allAscii.
Proof.
  unfold allAscii. rewrite <- (ascii_nat_embedding c).
  apply in_map, in_seq. pose proof (nat_ascii_bounded c). lia.
Qed.

Lemma forall_ascii (f : ascii -> bool) :
  forallb f allAscii = true -> forall c, f c = true.
Proof.
  intros H c. rewrite forallb_forall in H. apply H, allAscii_complete.
Qed.

(** Under the [i] flag two code units match exactly when their lower-case
    forms agree. *)
Lemma charMatches_lower (p c : ascii) :
  Regex.charMatches true p c = Ascii.eqb (Str.toLowerChar p) (Str.toLowerChar c).
Proof.
  apply eqb_prop.
  revert c. pattern p. revert p.
  assert (H : forallb (fun p => forallb (fun c =>
                Bool.eqb (Regex.charMatches true p c)
                         (Ascii.eqb (Str.toLowerChar p) (Str.toLowerChar c)))
              allAscii) allAscii = true) by (vm_compute; reflexivity).
  intros p c.
  pose proof (forall_ascii _ H p) as Hp. cbv beta in Hp.
  exact (forall_ascii _ Hp c).
Qed.

Lemma toLowerCase_app (a b : string) :
  Str.toLowerCase (a ++ b) = Str.toLowerCase a ++ Str.toLowerCase b.
Proof. induction a as [|c a IH]; simpl; [reflexivity|now rewrite IH]. Qed.

Lemma toLowerCase_length (a : string) :
  String.length (Str.toLowerCase a) = String.length a.
Proof. induction a as [|c a IH]; simpl; [reflexivity|now rewrite IH]. Qed.

(** A literal word matches a prefix of the input that agrees with it up to
    letter case. *)
Lemma matchAt_lit (w s : string) (k : string -> bool) :
  Regex.matchAt true (Regex.lit w) s k = true <->
  exists t u, s = t ++ u /\ Str.toLowerCase t = Str.toLowerCase w /\ k u = true.
Proof.
  revert s. induction w as [|c w IH]; intros s; cbn [Regex.lit Regex.matchAt].
  - split.
    + intros H. exists "", s. auto.
    + intros (t & u & -> & Ht & Hk). destruct t; [exact Hk|discriminate].
  - destruct s as [|a s].
    + split; [discriminate|].
      intros (t & u & Hs & Ht & _). destruct t; discriminate.
    + rewrite charMatches_lower.
      destruct (Ascii.eqb_spec (Str.toLowerChar c) (Str.toLowerChar a)) as [E|E].
      * rewrite IH. split.
        -- intros (t & u & -> & Ht & Hk). exists (String a t), u.
           cbn. rewrite Ht, E. auto.
        -- intros (t & u & Hs & Ht & Hk). destruct t as [|a' t]; [discriminate|].
           cbn in Hs, Ht. injection Hs as -> ->. injection Ht as _ Ht.
           exists t, u. auto.
      * split; [discriminate|].
        intros (t & u & Hs & Ht & _). destruct t as [|a' t]; [discriminate|].
        cbn in Hs, Ht. injection Hs as -> ->. injection Ht as Ha _.
        congruence.
Qed.

Lemma append_empty_r (s : string) : s ++ "" = s.
Proof. induction s as [|c s IH]; cbn; [reflexivity|now rewrite IH]. Qed.

Lemma matchAt_Eos (s : string) :
  Regex.matchAt true Regex.Eos s (fun _ => true) = true <-> s = "".
Proof. destruct s; cbn; split; congruence. Qed.

Lemma matchAt_Alt (r1 r2 : Regex.regex) (s : string) (k : string -> bool) :
  Regex.matchAt true (Regex.Alt r1 r2) s k =
  Regex.matchAt true r1 s k || Regex.matchAt true r2 s k.
Proof. reflexivity. Qed.

Lemma matchAt_Chr (p a : ascii) (s : string) (k : string -> bool) :
  Regex.matchAt true (Regex.Chr p) (String a s) k =
  if Regex.charMatches true p a then k s else false.
Proof. reflexivity. Qed.

Lemma matchAt_Seq (r1 r2 : Regex.regex) (s : string) (k : string -> bool) :
  Regex.matchAt true (Regex.Seq r1 r2) s k =
  Regex.matchAt true r1 s (fun s' => Regex.matchAt true r2 s' k).
Proof. reflexivity. Qed.

(** A literal followed by the end of input matches exactly the inputs that
    are the word up to letter case. *)
Lemma matchAt_lit_Eos (w s : string) :
  Regex.matchAt true (Regex.lit w) s
    (fun s' => Regex.matchAt true Regex.Eos s' (fun _ => true)) = true <->
  Str.toLowerCase s = Str.toLowerCase w.
Proof.
  rewrite matchAt_lit. split.
  - intros (t & u & -> & Ht & Hu). apply matchAt_Eos in Hu. subst u.
    now rewrite append_empty_r.
  - intros H. exists s, "". rewrite append_empty_r.
    repeat split; assumption.
Qed.

(** The pattern matches at the start of [s] exactly when [s] is a dot and an
    image extension, up to letter case. *)
Lemma matchAt_imageRegex (s : string) :
  Regex.matchAt true imageRegex s (fun _ => true) = true <->
  exists ext, In ext imageExtensions /\ Str.toLowerCase s = Str.toLowerCase ("." ++ ext).
Proof.
  unfold imageRegex. rewrite matchAt_Seq.
  destruct s as [|a s].
  { split; [discriminate|]. intros (ext & _ & H). discriminate. }
  rewrite matchAt_Chr, charMatches_lower.
  destruct (Ascii.eqb_spec (Str.toLowerChar ".") (Str.toLowerChar a)) as [E|E].
  - rewrite matchAt_Seq, !matchAt_Alt, !orb_true_iff, !matchAt_lit_Eos.
    split.
    + intros H.
      repeat (destruct H as [H|H]);
        match type of H with
        | _ = Str.toLowerCase ?w =>
            exists w; split; [cbn; tauto|cbn [String.append Str.toLowerCase]; now rewrite H, E]
        end.
    + intros (ext & Hin & H). cbn [String.append Str.toLowerCase] in H.
      injection H as _ H.
      cbn in Hin. 
      repeat (destruct Hin as [<-|Hin]; [tauto|]). contradiction.
  - split; [discriminate|].
    intros (ext & _ & H). cbn [String.append Str.toLowerCase] in H.
    injection H as H _. congruence.
Qed.

(** [test] looks for a match at every start index. *)
Lemma test_spec (r : Regex.regex) (s : string) :
  Regex.test true r s = true <->
  exists p t, s = p ++ t /\ Regex.matchAt true r t (fun _ => true) = true.
Proof.
  induction s as [|c s IH]; cbn [Regex.test]; rewrite orb_true_iff.
  - split.
    + intros [H|H]; [|discriminate]. exists "", "". auto.
    + intros (p & t & Hs & H). left.
      destruct p; [|discriminate]. cbn in Hs. now subst t.
  - rewrite IH. split.
    + intros [H|(p & t & -> & H)].
      * exists "", (String c s). auto.
      * exists (String c p), t. auto.
    + intros (p & t & Hs & H). destruct p as [|c' p].
      * cbn in Hs. subst t. now left.
      * cbn in Hs. injection Hs as -> ->. right. exists p, t. auto.
Qed.

Lemma test_imageRegex (s : string) :
  Regex.test true imageRegex s = true <-> hasImageSuffix s.
Proof.
  rewrite test_spec. unfold hasImageSuffix, endsWithIgnoreCase. split.
  - intros (p & t & -> & H). apply matchAt_imageRegex in H as (ext & Hin & H).
    exists ext. split; [exact Hin|]. exists p, t. auto.
  - intros (ext & Hin & p & t & -> & H). exists p, t. split; [reflexivity|].
    apply matchAt_imageRegex. exists ext. auto.
Qed.

(** C2. The candidate test accepts a string exactly when it begins with
    [http] (the prefix common to the http and https schemes) and does not end
    in a dot and one of jpg, jpeg, png, webp, gif, svg, bmp, tiff, letter case
    ignored; a string with such an ending is rejected whatever precedes it,
    and so is every value that is not a string. *)
Theorem isVideoUrl_spec :
  (forall s : string,
      isVideoUrl (VStr s) = true <->
      Str.startsWith s "http" = true /\ ~ hasImageSuffix s) /\
  (forall s : string, hasImageSuffix s -> isVideoUrl (VStr s) = false) /\
  (forall v : value, (forall s, v <> VStr s) -> isVideoUrl v = false).
Proof.
  assert (Himg : forall s, hasImageSuffix s -> isVideoUrl (VStr s) = false).
  { intros s H. apply test_imageRegex in H. cbn [isVideoUrl]. rewrite H.
    now destruct (Str.startsWith s "http"). }
  repeat split.
  - destruct (Str.startsWith s "http") eqn:E; [reflexivity|].
    cbn [isVideoUrl] in H. rewrite E in H. discriminate.
  - intros Hs. rewrite (Himg s Hs) in H. discriminate.
  - intros [Hp Hn]. cbn [isVideoUrl]. rewrite Hp. cbn [negb].
    destruct (Regex.test true imageRegex s) eqn:E; [|reflexivity].
    exfalso. apply Hn, test_imageRegex, E.
  - exact Himg.
  - intros v Hv. destruct v; try reflexivity. now elim (Hv s).
Qed.

Lemma isVideoUrl_spec_witness :
  isVideoUrl (VStr "https://x/PHOTO.JpEg") = false /\ isVideoUrl (VNum 7%float) = false.
Proof.
  split.
  - apply (proj1 (proj2 isVideoUrl_spec)).
    exists "jpeg". split; [cbn; tauto|].
    exists "https://x/PHOTO", ".JpEg". split; reflexivity.
  - apply (proj2 (proj2 isVideoUrl_spec)). intros s; discriminate.
Defined.

(* ===================================================================== *)
(** ** The file-name policy *)
(* ===================================================================== *)






(** On a string the repeated lines compute [safeFileName] of the next
    random draw. *)
Lemma computeFileName_string (fileName : string) (env : Env) (w : World) :
  computeFileName (VStr fileName) env w =
  (Ok (safeFileName fileName (random env (draws w))),
   mkWorld (state w) (trace w) (fetches w) (S (draws w))).
Proof. destruct fileName; reflexivity. Qed.



(* ===================================================================== *)
(** ** Reasoning about runs *)
(* ===================================================================== *)


Lemma requests_app (a b : list event) :
  requests (a ++ b)%list = (requests a ++ requests b)%list.
Proof.
  induction a as [|e a IH]; [reflexivity|].
  destruct e; cbn; rewrite IH; reflexivity.
Qed.



(** Unfolds the monad and its primitives. *)
Ltac run :=
  cbv beta iota zeta delta
    [bind ret throw tryCatch tryFinally emit getState setState fetch json getBlob
     parseJSON mathRandom console createObjectURL readProp click issued];
  cbn [fst snd state trace fetches draws].

(** Splits on the scrutinee of an innermost pending [match] of the goal. *)
Ltac split_match :=
  match goal with
  | |- context [match ?x with _ => _ end] =>
      lazymatch x with
      | context [match _ with _ => _ end] => fail
      | _ => destruct x eqn:?
      end
  end.

Ltac split_all := repeat (split_match; run).

(** Brings the trace of a computed run into the form [trace w ++ events],
    before the events are named. *)
Ltac normalise_run :=
  match goal with
  | |- exists (evs : list event) (n d : nat), ?out = @?rhs evs n d /\ @?rest evs n d =>
      let x := fresh "out" in
      let H := fresh "Hout" in
      remember out as x eqn:H;
      rewrite <- ?app_assoc in H; cbn [app] in H; subst x
  end.


Ltac finish_strategy :=
  eexists; eexists; split;
  [ rewrite <- ?app_assoc; cbn [app]; reflexivity
  | split; [reflexivity|];
    split; cbn [In]; intros m Hm; intuition congruence ].

Lemma tryDirect_run (targetUrl : string) (env : Env) (w : World) :
  strategyRun (tryDirect targetUrl) (GET targetUrl) env w.
Proof.
  unfold strategyRun, tryDirect. run. split_all; finish_strategy.
Qed.

Lemma tryCorsProxy_run (targetUrl : string) (env : Env) (w : World) :
  strategyRun (tryCorsProxy targetUrl) (GET (corsProxyUrl targetUrl)) env w.
Proof.
  unfold strategyRun, tryCorsProxy. run. split_all; finish_strategy.
Qed.

Lemma tryAllOrigins_run (targetUrl : string) (env : Env) (w : World) :
  strategyRun (tryAllOrigins targetUrl) (GET (allOriginsUrl targetUrl)) env w.
Proof.
  unfold strategyRun, tryAllOrigins. run. split_all; finish_strategy.
Qed.

(* ===================================================================== *)
(** ** The resilient fetcher *)
(* ===================================================================== *)

Lemma fetchWithBackups_after_direct (targetUrl : string) (env : Env) (w w1 : World) :
  tryDirect targetUrl env w = (Ok None, w1) ->
  fetchWithBackups targetUrl env w = proxyStrategies targetUrl env w1.
Proof.
  intros H. unfold fetchWithBackups, proxyStrategies.
  unfold bind at 1. rewrite H. reflexivity.
Qed.

(** The events of the proxy strategies: the request to proxy A comes first,
    and no body of an earlier response is read. *)
Lemma proxyStrategies_trace (targetUrl : string) (env : Env) (w : World) :
  exists rest,
    trace (snd (proxyStrategies targetUrl env w)) =
      (trace w ++ EFetch (fetches w) (GET (corsProxyUrl targetUrl)) :: rest)%list /\
    (forall m, In (EJson m) rest -> fetches w <= m).
Proof.
  unfold proxyStrategies. unfold bind at 1.
  destruct (tryCorsProxy_run targetUrl env w) as (o & evs & -> & _ & Hj & _).
  unfold issued. cbn [trace]. rewrite <- app_assoc. cbn [app].
  destruct o as [v|].
  - exists evs. split; [reflexivity|]. intros m Hm. rewrite (Hj m Hm). lia.
  - unfold bind at 1.
    match goal with
    | |- context [tryAllOrigins targetUrl env ?w2] =>
        destruct (tryAllOrigins_run targetUrl env w2) as (o & evs' & -> & _ & Hj' & _)
    end.
    unfold issued in *. cbn [trace fetches] in *.
    exists (evs ++ EFetch (S (fetches w)) (GET (allOriginsUrl targetUrl)) :: evs')%list.
    split.
    + destruct o; cbn [ret throw snd trace]; now rewrite <- !app_assoc.
    + intros m Hm. apply in_app_or in Hm as [Hm|[Hm|Hm]].
      * rewrite (Hj m Hm). lia.
      * discriminate.
      * rewrite (Hj' m Hm). lia.
Qed.

(** C4. When the direct request answers with a success status and a content
    type that does not announce JSON, the direct strategy falls through
    without reading the body, and the fetcher goes on with proxy A: the next
    event is the request to proxy A, and the body of the direct response is
    never parsed. *)
Theorem direct_non_json_falls_to_proxy
    (env : Env) (targetUrl : string) (w : World) (r : response) :
  net env (fetches w) (GET targetUrl) = Some r ->
  res_ok r = true ->
  isJsonContentType (res_contentType r) = false ->
  tryDirect targetUrl env w = (Ok None, issued w (GET targetUrl)) /\
  fetchWithBackups targetUrl env w =
    proxyStrategies targetUrl env (issued w (GET targetUrl)) /\
  exists rest,
    trace (snd (fetchWithBackups targetUrl env w)) =
      (trace w ++ EFetch (fetches w) (GET targetUrl)
         :: EFetch (S (fetches w)) (GET (corsProxyUrl targetUrl)) :: rest)%list /\
    ~ In (EJson (fetches w)) rest.
Proof.
  intros Hnet Hok Hct.
  assert (Hd : tryDirect targetUrl env w = (Ok None, issued w (GET targetUrl))).
  { unfold tryDirect. run. rewrite Hnet. run. rewrite Hok, Hct. reflexivity. }
  split; [exact Hd|].
  rewrite (fetchWithBackups_after_direct _ _ _ _ Hd).
  split; [reflexivity|].
  destruct (proxyStrategies_trace targetUrl env (issued w (GET targetUrl)))
    as (rest & -> & Hj).
  exists rest. unfold issued in *. cbn [trace fetches] in *.
  split; [now rewrite <- app_assoc|].
  intros Hin. apply Hj in Hin. lia.
Qed.

Lemma direct_non_json_falls_to_proxy_witness :
  tryDirect "https://api/x" (scriptedEnv [Some htmlPage]) (freshWorld (idleState "")) =
  (Ok None, issued (freshWorld (idleState "")) (GET "https://api/x")).
Proof.
  apply (direct_non_json_falls_to_proxy (scriptedEnv [Some htmlPage]) "https://api/x"
           (freshWorld (idleState "")) htmlPage); reflexivity.
Defined.

(** The fetcher throws nothing but the unified error, and only after each of
    the three strategies has run and fallen through. *)
Lemma fetchWithBackups_throws_last (env : Env) (targetUrl : string) (w w3 : World) (e : exn) :
  fetchWithBackups targetUrl env w = (Throw e, w3) ->
  e = fetchFailure /\
  exists w1 w2,
    tryDirect targetUrl env w = (Ok None, w1) /\
    tryCorsProxy targetUrl env w1 = (Ok None, w2) /\
    tryAllOrigins targetUrl env w2 = (Ok None, w3) /\
    requests (trace w3) =
      (requests (trace w) ++
       [GET targetUrl; GET (corsProxyUrl targetUrl); GET (allOriginsUrl targetUrl)])%list.
Proof.
  intros H. unfold fetchWithBackups in H. unfold bind at 1 in H.
  destruct (tryDirect_run targetUrl env w) as (o1 & evs1 & H1 & Hr1 & _ & _).
  rewrite H1 in H. destruct o1 as [v|]; [discriminate|].
  unfold bind at 1 in H.
  match type of H with
  | context [tryCorsProxy targetUrl env ?w1] =>
      destruct (tryCorsProxy_run targetUrl env w1) as (o2 & evs2 & H2 & Hr2 & _ & _)
  end.
  rewrite H2 in H. destruct o2 as [v|]; [discriminate|].
  unfold bind at 1 in H.
  match type of H with
  | context [tryAllOrigins targetUrl env ?w2] =>
      destruct (tryAllOrigins_run targetUrl env w2) as (o3 & evs3 & H3 & Hr3 & _ & _)
  end.
  rewrite H3 in H. destruct o3 as [v|]; [discriminate|].
  unfold throw in H. injection H as <- <-.
  split; [reflexivity|].
  eexists; eexists.
  split; [exact H1|]. split; [exact H2|]. split; [exact H3|].
  unfold issued. cbn [trace fetches state draws].
  rewrite !requests_app. cbn [requests]. rewrite Hr1, Hr2, Hr3.
  rewrite <- !app_assoc. reflexivity.
Qed.

(** Proxy B answering with an envelope whose [contents] is a string that
    does not parse is a failure of that strategy, not an exception. *)
Lemma tryAllOrigins_unparseable
    (env : Env) (targetUrl : string) (w : World) (r : response)
    (envelope : value) (s : string) :
  net env (fetches w) (GET (allOriginsUrl targetUrl)) = Some r ->
  res_ok r = true ->
  res_json r = Some envelope ->
  getProp envelope "contents" = Some (VStr s) ->
  JSON_parse env (VStr s) = None ->
  exists w', tryAllOrigins targetUrl env w = (Ok None, w').
Proof.
  intros Hnet Hok Hjson Hc Hparse.
  unfold tryAllOrigins. run. rewrite Hnet. run. rewrite Hok, Hjson. run.
  destruct envelope; try discriminate. run. rewrite Hc.
  destruct (truthy (VStr s)); run; [rewrite Hparse|]; eexists; reflexivity.
Qed.

(** C5. When proxy B answers successfully with an envelope whose [contents]
    is a string that is not JSON, the proxy-B strategy falls through (no
    parse fault escapes), and the fetcher throws the one unified error; it
    never throws anything else, and whenever it throws, the three strategies
    have each run and fallen through, in order. *)
Theorem allOrigins_unparseable_is_exhaustion :
  (forall (env : Env) (targetUrl : string) (w0 w1 w2 : World) (r : response)
          (envelope : value) (s : string),
      tryDirect targetUrl env w0 = (Ok None, w1) ->
      tryCorsProxy targetUrl env w1 = (Ok None, w2) ->
      net env (fetches w2) (GET (allOriginsUrl targetUrl)) = Some r ->
      res_ok r = true ->
      res_json r = Some envelope ->
      getProp envelope "contents" = Some (VStr s) ->
      JSON_parse env (VStr s) = None ->
      exists w3,
        tryAllOrigins targetUrl env w2 = (Ok None, w3) /\
        fetchWithBackups targetUrl env w0 = (Throw fetchFailure, w3)) /\
  (forall (env : Env) (targetUrl : string) (w w3 : World) (e : exn),
      fetchWithBackups targetUrl env w = (Throw e, w3) ->
      e = fetchFailure /\
      exists w1 w2,
        tryDirect targetUrl env w = (Ok None, w1) /\
        tryCorsProxy targetUrl env w1 = (Ok None, w2) /\
        tryAllOrigins targetUrl env w2 = (Ok None, w3) /\
        requests (trace w3) =
          (requests (trace w) ++
           [GET targetUrl; GET (corsProxyUrl targetUrl);
            GET (allOriginsUrl targetUrl)])%list).
Proof.
  split; [|exact fetchWithBackups_throws_last].
  intros env targetUrl w0 w1 w2 r envelope s H1 H2 Hnet Hok Hjson Hc Hparse.
  destruct (tryAllOrigins_unparseable env targetUrl w2 r envelope s
              Hnet Hok Hjson Hc Hparse) as (w3 & H3).
  exists w3. split; [exact H3|].
  unfold fetchWithBackups. unfold bind at 1. rewrite H1.
  unfold bind at 1. rewrite H2. unfold bind at 1. rewrite H3. reflexivity.
Qed.

Lemma allOrigins_unparseable_is_exhaustion_witness :
  fst (fetchWithBackups "https://api/x" (scriptedEnv [None; None; Some brokenEnvelope])
         (freshWorld (idleState ""))) = Throw fetchFailure.
Proof.
  pose (env := scriptedEnv [None; None; Some brokenEnvelope]).
  pose (w0 := freshWorld (idleState "")).
  pose (w1 := snd (tryDirect "https://api/x" env w0)).
  pose (w2 := snd (tryCorsProxy "https://api/x" env w1)).
  pose proof (proj1 allOrigins_unparseable_is_exhaustion env "https://api/x" w0 w1 w2
                brokenEnvelope (VObj [("contents", VStr "not valid json")])
                "not valid json" eq_refl eq_refl eq_refl eq_refl eq_refl eq_refl eq_refl)
    as (w3 & _ & H).
  change (fst (fetchWithBackups "https://api/x" env w0) = Throw fetchFailure).
  rewrite H. reflexivity.
Defined.

(** The fetcher as a whole: its first event is the direct request, it
    calls no setter, and it either returns or throws the unified error. *)
Lemma fetchWithBackups_run (targetUrl : string) (env : Env) (w : World) :
  exists (o : Outcome value) (evs : list event) (n : nat),
    fetchWithBackups targetUrl env w =
      (o, mkWorld (state w) (trace (issued w (GET targetUrl)) ++ evs)%list n (draws w)) /\
    (forall u, ~ In (ESet u) evs) /\
    (forall e, o = Throw e -> e = fetchFailure).
Proof.
  unfold fetchWithBackups. unfold bind at 1.
  destruct (tryDirect_run targetUrl env w) as (o1 & evs1 & -> & _ & _ & Hs1).
  destruct o1 as [v|].
  { exists (Ok v), evs1, (S (fetches w)). repeat split; [exact Hs1|discriminate]. }
  unfold bind at 1.
  match goal with
  | |- context [tryCorsProxy targetUrl env ?w1] =>
      destruct (tryCorsProxy_run targetUrl env w1) as (o2 & evs2 & -> & _ & _ & Hs2)
  end.
  unfold issued in *. cbn [state trace fetches draws] in *.
  destruct o2 as [v|].
  { eexists (Ok v), _, _. rewrite <- !app_assoc. cbn [app ret].
    split; [reflexivity|]. split; [|discriminate].
    intros u Hu. apply in_app_or in Hu as [Hu|[Hu|Hu]];
      [exact (Hs1 u Hu)|discriminate|exact (Hs2 u Hu)]. }
  unfold bind at 1.
  match goal with
  | |- context [tryAllOrigins targetUrl env ?w2] =>
      destruct (tryAllOrigins_run targetUrl env w2) as (o3 & evs3 & -> & _ & _ & Hs3)
  end.
  unfold issued in *. cbn [state trace fetches draws] in *.
  eexists (match o3 with Some v => Ok v | None => Throw fetchFailure end), _, _.
  rewrite <- !app_assoc. cbn [app].
  split; [destruct o3; reflexivity|]. split.
  - intros u Hu.
    apply in_app_or in Hu as [Hu|[Hu|Hu]]; [exact (Hs1 u Hu)|discriminate|].
    apply in_app_or in Hu as [Hu|[Hu|Hu]]; [exact (Hs2 u Hu)|discriminate|exact (Hs3 u Hu)].
  - destruct o3; intros e He; [discriminate|]. now injection He as <-.
Qed.

(* ===================================================================== *)
(** ** The query action *)
(* ===================================================================== *)

Lemma trimStart_allWhiteSpace (s : string) :
  allWhiteSpace s = true -> Str.trimStart s = "".
Proof.
  induction s as [|c s IH]; cbn; [reflexivity|].
  intros H. apply andb_true_iff in H as [-> Hs]. now apply IH.
Qed.

Lemma trim_allWhiteSpace (s : string) : allWhiteSpace s = true -> Str.trim s = "".
Proof. intros H. unfold Str.trim. now rewrite trimStart_allWhiteSpace. Qed.

(** C10. With a query text that is empty or all white space, the query
    action does nothing: it returns normally, issues no request, and leaves
    every state cell (loading, error, result, AI output among them) as it
    was. *)
Theorem fetchVideoInfo_blank_is_noop (env : Env) (w : World) :
  allWhiteSpace (url (state w)) = true ->
  fetchVideoInfo env w = (Ok tt, w).
Proof.
  intros H. unfold fetchVideoInfo. run.
  rewrite (trim_allWhiteSpace _ H). reflexivity.
Qed.

Lemma fetchVideoInfo_blank_is_noop_witness :
  fetchVideoInfo (scriptedEnv [Some htmlPage])
    (mkWorld (mkState "   " false (Some "old error") None false false None None) [] 0 0)
  = (Ok tt,
     mkWorld (mkState "   " false (Some "old error") None false false None None) [] 0 0).
Proof.
  apply (fetchVideoInfo_blank_is_noop (scriptedEnv [Some htmlPage])
           (mkWorld (mkState "   " false (Some "old error") None false false None None)
              [] 0 0)).
  reflexivity.
Defined.

Lemma resetForNewQuery_run (env : Env) (w : World) :
  resetForNewQuery env w =
  (Ok tt,
   mkWorld
     (mkState (url (state w)) true None None (downloading (state w))
        (aiLoading (state w)) None (aiMode (state w)))
     (trace w ++
      [ESet (SetLoading true); ESet (SetError None); ESet (SetResult None);
       ESet (SetAiOutput None)])%list
     (fetches w) (draws w)).
Proof.
  unfold resetForNewQuery. run. cbn. rewrite <- !app_assoc. reflexivity.
Qed.




(* ===================================================================== *)
(** ** The download orchestrator *)
(* ===================================================================== *)




(* ===================================================================== *)
(** ** The generative-text action *)
(* ===================================================================== *)

(** C9. Whatever the mode, the credential and the upstream answer, the
    generative-text action returns normally and calls only the setters of
    the AI cells: the query text, the loading flag, the error, the current
    result and the downloading flag are as before. When there is a current
    result, the AI output ends as the text the upstream sent, or else (no
    credential, failed call, no text in the answer) as the fixed inline
    message; with the empty credential of the source it is always that
    message and no request is made. *)
Theorem generateAIContent_frame (env : Env) (key mode : string) (w : World) :
  exists (final : AppState) (evs : list event) (n : nat),
    generateAIContentWith key mode env w =
      (Ok tt, mkWorld final (trace w ++ evs)%list n (draws w)) /\
    url final = url (state w) /\
    loading final = loading (state w) /\
    error final = error (state w) /\
    result final = result (state w) /\
    downloading final = downloading (state w) /\
    (forall u, In (ESet u) evs -> isAiUpdate u = true) /\
    (forall r, result (state w) = Some r ->
       aiLoading final = false /\
       aiMode final = Some mode /\
       (key = "" -> aiOutput final = Some (VStr aiFallbackText) /\ requests evs = []) /\
       (aiOutput final = Some (VStr aiFallbackText) \/
        exists (response : response) (data text : value),
          key <> "" /\
          net env (fetches w) (aiRequest key (aiPrompt env mode r)) = Some response /\
          res_ok response = true /\
          res_json response = Some data /\
          candidateText (getProp data "candidates") = Some text /\
          truthy text = true /\
          aiOutput final = Some text)) /\
    generateAIContent mode env w = generateAIContentWith "" mode env w.
Proof.
  unfold generateAIContent, apiKey, generateAIContentWith. run.
  destruct (result (state w)) as [r|] eqn:Hres.
  2:{ exists (state w), [], (fetches w). rewrite app_nil_r.
      destruct w as [s t f d]; cbn [state trace fetches draws] in *.
      repeat split; try reflexivity; try contradiction; congruence. }
  run. destruct key as [|c key]; cbn [Str.nonEmpty String.eqb negb]; run.
  - cbn [applyUpdate url loading error result downloading aiLoading aiOutput aiMode].
    eexists; eexists; eexists.
    split; [rewrite <- ?app_assoc; cbn [app]; reflexivity|].
    cbn [url loading error result downloading aiLoading aiOutput aiMode].
    do 5 (split; [first [reflexivity|congruence]|]).
    split.
    { cbn [In]. intros u Hu.
      repeat (destruct Hu as [Hu|Hu]; [try discriminate; injection Hu as <-; reflexivity|]).
      contradiction. }
    split; [|reflexivity].
    intros r' Hr'. repeat split; try reflexivity. now left.
  - split_all.
    all: cbn [applyUpdate url loading error result downloading aiLoading aiOutput aiMode].
    all: match goal with
         | |- exists (final : AppState) (evs : list event) (n : nat),
                ?out = @?rhs final evs n /\ @?rest final evs n =>
             let x := fresh "out" in
             let H := fresh "Hout" in
             remember out as x eqn:H;
             rewrite <- ?app_assoc in H; cbn [app] in H; subst x
         end.
    all: eexists; eexists; eexists.
    all: (split; [reflexivity|]).
    all: cbn [url loading error result downloading aiLoading aiOutput aiMode].
    all: do 5 (split; [first [reflexivity|congruence]|]).
    all: (split;
          [cbn [In]; intros u Hu;
           repeat (destruct Hu as [Hu|Hu];
                   [try discriminate; injection Hu as <-; reflexivity|]);
           contradiction|]).
    all: (split; [|reflexivity]).
    all: intros r' Hr'; injection Hr' as <-.
    all: (split; [reflexivity|]); (split; [reflexivity|]).
    all: (split; [intros; discriminate|]).
    all: try (left; reflexivity).
    all: try discriminate.
    all: right; eexists; eexists; eexists.
    all: repeat match goal with
           | H : negb ?b = false |- _ => apply negb_false_iff in H
           end.
    all: repeat (split; [first [discriminate | eassumption | reflexivity]|]).
    all: try reflexivity.
    all: try eassumption.
Qed.

Lemma generateAIContent_frame_witness :
  exists final evs n,
    generateAIContent "caption" (scriptedEnv []) staleWorld =
      (Ok tt, mkWorld final evs n 0) /\
    result final = Some staleResult /\
    error final = Some "old error" /\
    aiOutput final = Some (VStr aiFallbackText) /\
    requests evs = [].
Proof.
  destruct (generateAIContent_frame (scriptedEnv []) "" "caption" staleWorld)
    as (final & evs & n & Hrun & _ & _ & Herr & Hres & _ & _ & Hai & Hsrc).
  exists final, evs, n. rewrite Hsrc.
  destruct (Hai staleResult eq_refl) as (_ & _ & Hkey & _).
  destruct (Hkey eq_refl) as [Hout Hreq].
  repeat split; assumption.
Defined.

(* ===================================================================== *)
(** ** Further properties *)
(* ===================================================================== *)

Lemma computeFileName_non_string (fileName : value) (env : Env) (w : World) :
  truthy fileName = true ->
  (forall s, fileName <> VStr s) ->
  computeFileName fileName env w = (Throw (Native (NotAFunction "replace")), w).
Proof.
  intros Ht Hs. unfold computeFileName, sanitize, valueOr. rewrite Ht.
  destruct fileName; try reflexivity. now elim (Hs s).
Qed.

(** X1. The file name is computed once more inside the last [catch] block. When
    the suggested name is a truthy value that is not a string (the title of
    the upstream document may be a number), [replace] is not a function of
    it: the error thrown there escapes, after the downloading flag has been
    reset, and no link is clicked. *)
Theorem handleDownload_rejects_non_string_name
    (env : Env) (fileUrl : string) (fileName : value) (w : World) :
  truthy fileName = true ->
  (forall s, fileName <> VStr s) ->
  exists (evs : list event) (n : nat),
    handleDownload fileUrl fileName env w =
      (Throw (Native (NotAFunction "replace")),
       mkWorld (applyUpdate (state w) (SetDownloading false)) (trace w ++ evs)%list
         n (draws w)) /\
    (forall l, ~ In (EClick l) evs).
Proof.
  intros Ht Hs.
  unfold handleDownload, newTabFallback, triggerBrowserDownload.
  run. rewrite ?(computeFileName_non_string _ _ _ Ht Hs).
  repeat (run; rewrite ?(computeFileName_non_string _ _ _ Ht Hs); split_match).
  all: run; rewrite ?(computeFileName_non_string _ _ _ Ht Hs); run.
  all: cbn [applyUpdate url loading error result downloading aiLoading aiOutput aiMode].
  all: match goal with
       | |- exists (evs : list event) (n : nat), ?out = @?rhs evs n /\ @?rest evs n =>
           let x := fresh "out" in
           let H := fresh "Hout" in
           remember out as x eqn:H;
           rewrite <- ?app_assoc in H; cbn [app] in H; subst x
       end.
  all: eexists; eexists; (split; [reflexivity|]).
  all: cbn [In]; intros l Hl; intuition discriminate.
Qed.

Lemma handleDownload_rejects_non_string_name_witness :
  fst (handleDownload "https://cdn/v.mp4" (VNum 123%float) (scriptedEnv [])
         (freshWorld (idleState "q")))
  = Throw (Native (NotAFunction "replace")).
Proof.
  destruct (handleDownload_rejects_non_string_name (scriptedEnv []) "https://cdn/v.mp4"
              (VNum 123%float) (freshWorld (idleState "q")))
    as (evs & n & Hrun & _).
  - reflexivity.
  - intros s; discriminate.
  - rewrite Hrun. reflexivity.
Defined.

Lemma firstVideoKey_string (keys : list string) (obj d : value) :
  firstVideoKey keys obj = Some d -> isVideoUrl d = true.
Proof.
  induction keys as [|key rest IH]; cbn [firstVideoKey]; [discriminate|].
  destruct (getProp obj key) as [v|]; [|exact IH].
  destruct (truthy v && isVideoUrl v) eqn:E; [|exact IH].
  intros H. injection H as <-. now apply andb_true_iff in E.
Qed.

(** X2. The extractor returns null or a string that passes the candidate
    test. *)
Theorem findDownloadLink_returns_candidate (doc d : value) :
  findDownloadLink doc = Some d ->
  isVideoUrl d = true /\ exists s, d = VStr s.
Proof.
  intros H. enough (Hv : isVideoUrl d = true).
  { split; [exact Hv|]. now apply isVideoUrl_is_string. }
  revert d H.
  induction doc as [| b | x | s | items IH | props IH] using value_nested_ind;
    intros d H.
  - discriminate.
  - destruct b; discriminate.
  - cbn in H. destruct (negb _); discriminate.
  - cbn [findDownloadLink] in H. destruct (negb (truthy (VStr s))); [discriminate|].
    destruct (isVideoUrl (VStr s)) eqn:E; [|discriminate]. now injection H as <-.
  - rewrite findDownloadLink_VArr in H.
    induction IH as [|v vs Hv _ IHvs]; [discriminate|].
    cbn [searchItems] in H.
    destruct (findDownloadLink v) as [found|] eqn:E; [|exact (IHvs H)].
    destruct (truthy found); [|exact (IHvs H)].
    injection H as <-. now apply Hv.
  - rewrite findDownloadLink_VObj in H.
    destruct (firstVideoKey priorityKeys (VObj props)) eqn:Ep.
    { injection H as <-. exact (firstVideoKey_string _ _ _ Ep). }
    destruct (firstVideoKey genericKeys (VObj props)) eqn:Eg.
    { injection H as <-. exact (firstVideoKey_string _ _ _ Eg). }
    clear Ep Eg.
    induction IH as [|[k v] ps Hv _ IHps]; [discriminate|].
    cbn [searchProps] in H.
    destruct (isSkippedKey k); [exact (IHps H)|].
    destruct (findDownloadLink v) as [found|] eqn:E; [|exact (IHps H)].
    destruct (truthy found); [|exact (IHps H)].
    injection H as <-. now apply Hv.
Qed.

Lemma findDownloadLink_returns_candidate_witness :
  isVideoUrl (VStr "https://cdn/v.mp4") = true.
Proof.
  apply (findDownloadLink_returns_candidate coolDocument (VStr "https://cdn/v.mp4")).
  reflexivity.
Defined.

(** X3. When the metadata is retrieved (and is not null) but holds no candidate,
    the query action stores no result and surfaces the extraction failure
    message; the loading flag is reset. *)
Theorem fetchVideoInfo_surfaces_extraction_failure
    (env : Env) (w w1 : World) (data : value) :
  Str.trim (url (state w)) <> "" ->
  fetchWithBackups (apiEndpoint (url (state w))) env (snd (resetForNewQuery env w)) =
    (Ok data, w1) ->
  data <> VNull ->
  findDownloadLink data = None ->
  fst (fetchVideoInfo env w) = Ok tt /\
  result (state (snd (fetchVideoInfo env w))) = None /\
  error (state (snd (fetchVideoInfo env w))) =
    Some "Could not find a valid video link. The link might be private or an image." /\
  loading (state (snd (fetchVideoInfo env w))) = false.
Proof.
  intros Hq Hfetch Hnull Hnone.
  rewrite resetForNewQuery_run in Hfetch. cbn [snd] in Hfetch.
  assert (Hst : result (state w1) = None).
  { match type of Hfetch with
    | fetchWithBackups ?t env ?w0 = _ =>
        destruct (fetchWithBackups_run t env w0) as (o & evs & n & Hrun & _ & _)
    end.
    rewrite Hrun in Hfetch. injection Hfetch as _ <-. reflexivity. }
  assert (Hrun : exists final tr n d,
             fetchVideoInfo env w = (Ok tt, mkWorld final tr n d) /\
             result final = None /\
             error final =
               Some "Could not find a valid video link. The link might be private or an image." /\
             loading final = false).
  { unfold fetchVideoInfo.
    unfold bind at 1. unfold getState at 1. unfold Str.nonEmpty.
    destruct (String.eqb_spec (Str.trim (url (state w))) "") as [E|_];
      [contradiction|]. cbn [negb].
    unfold bind at 1. rewrite resetForNewQuery_run.
    unfold tryFinally, tryCatch. unfold bind at 1. rewrite Hfetch.
    run. rewrite Hnone.
    destruct data; try (now elim Hnull); run;
      cbn [applyUpdate result error loading];
      eexists; eexists; eexists; eexists;
      (split; [reflexivity|]); cbn [result error loading];
      rewrite ?Hst; repeat split; reflexivity. }
  destruct Hrun as (final & tr & n & d & -> & H1 & H2 & H3).
  cbn [fst snd state]. repeat split; assumption.
Qed.

Lemma fetchVideoInfo_surfaces_extraction_failure_witness :
  error (state (snd (fetchVideoInfo
                       (scriptedEnv [Some (jsonAnswer (VObj [("title", VStr "Cool")]))])
                       staleWorld)))
  = Some "Could not find a valid video link. The link might be private or an image.".
Proof.
  pose (env := scriptedEnv [Some (jsonAnswer (VObj [("title", VStr "Cool")]))]).
  pose (w1 := snd (fetchWithBackups (apiEndpoint (url (state staleWorld))) env
                     (snd (resetForNewQuery env staleWorld)))).
  destruct (fetchVideoInfo_surfaces_extraction_failure env staleWorld w1
              (VObj [("title", VStr "Cool")]))
    as (_ & _ & H & _).
  - discriminate.
  - reflexivity.
  - discriminate.
  - reflexivity.
  - exact H.
Defined.

(** A worked run, end to end: the query [https://tiktok.com/@a/video/123], answered with
    [{ play, title, author }], stores the link, the title and the author, and
    clears the stale error and AI output. *)
Example fetchVideoInfo_end_to_end :
  state (snd (fetchVideoInfo (scriptedEnv [Some (jsonAnswer coolDocument)]) staleWorld)) =
  mkState "https://tiktok.com/@a/video/123" false None
    (Some (mkResult (VStr "https://cdn/v.mp4") (VStr "Cool") VNull (VStr "a") coolDocument))
    false false None (Some "caption").
Proof. vm_compute. reflexivity. Qed.

(* ===================================================================== *)
(** ** More on the link extractor *)
(* ===================================================================== *)

Lemma lookup_In (key : string) (props : list (string * value)) (v : value) :
  lookup key props = Some v -> In (key, v) props.
Proof.
  induction props as [|[k x] rest IH]; cbn [lookup]; [discriminate|].
  destruct (String.eqb_spec k key) as [->|_].
  - intros H. injection H as ->. now left.
  - intros H. right. now apply IH.
Qed.

Lemma reachable_prop (k : string) (v : value) (props : list (string * value)) (s : string) :
  In (k, v) props -> isSkippedKey k = false -> In s (reachable v) ->
  In s (reachable (VObj props)).
Proof.
  intros Hin Hk Hs. cbn [reachable]. apply in_flat_map.
  exists (k, v). split; [exact Hin|]. cbn [fst snd]. now rewrite Hk.
Qed.

Lemma candidate_truthy (v : value) : isVideoUrl v = true -> truthy v = true.
Proof.
  destruct v; cbn; try discriminate.
  destruct s; [discriminate|reflexivity].
Qed.

(** What the key loop returns is a candidate string stored under one of the
    keys. *)
Lemma firstVideoKey_found (keys : list string) (obj d : value) :
  firstVideoKey keys obj = Some d ->
  exists key, In key keys /\ getProp obj key = Some d /\ isVideoUrl d = true.
Proof.
  induction keys as [|key rest IH]; cbn [firstVideoKey]; [discriminate|].
  destruct (getProp obj key) as [v|] eqn:Hv.
  - destruct (truthy v && isVideoUrl v) eqn:E.
    + intros H. injection H as <-. apply andb_true_iff in E as [_ E].
      exists key. repeat split; [now left|exact Hv|exact E].
    + intros H. destruct (IH H) as (k & Hin & Hk). exists k. split; [now right|exact Hk].
  - intros H. destruct (IH H) as (k & Hin & Hk). exists k. split; [now right|exact Hk].
Qed.

Lemma directKeys_not_skipped (key : string) :
  In key directKeys -> isSkippedKey key = false.
Proof.
  assert (H : forallb (fun k => negb (isSkippedKey k)) directKeys = true) by reflexivity.
  rewrite forallb_forall in H. intros Hin. apply negb_true_iff. now apply H.
Qed.

(** Soundness of the search: a result is a candidate string that the
    document holds outside the skipped keys. *)
Lemma findDownloadLink_sound (doc d : value) :
  findDownloadLink doc = Some d ->
  exists s, d = VStr s /\ In s (reachable doc) /\ isVideoUrl (VStr s) = true.
Proof.
  revert d.
  induction doc as [| b | x | s | items IH | props IH] using value_nested_ind;
    intros d H.
  - discriminate.
  - destruct b; discriminate.
  - cbn in H. destruct (negb _); discriminate.
  - cbn [findDownloadLink] in H. destruct (negb (truthy (VStr s))); [discriminate|].
    destruct (isVideoUrl (VStr s)) eqn:E; [|discriminate]. injection H as <-.
    exists s. repeat split; [now left|exact E].
  - rewrite findDownloadLink_VArr in H. cbn [reachable].
    induction IH as [|v vs Hv _ IHvs]; [discriminate|].
    cbn [searchItems] in H. cbn [flat_map].
    destruct (findDownloadLink v) as [found|] eqn:E.
    + destruct (truthy found).
      * injection H as <-. destruct (Hv _ eq_refl) as (s & -> & Hin & Hc).
        exists s. repeat split; [apply in_or_app; now left|exact Hc].
      * destruct (IHvs H) as (s & -> & Hin & Hc).
        exists s. repeat split; [apply in_or_app; now right|exact Hc].
    + destruct (IHvs H) as (s & -> & Hin & Hc).
      exists s. repeat split; [apply in_or_app; now right|exact Hc].
  - rewrite findDownloadLink_VObj in H.
    assert (Hkey : forall keys, (forall k, In k keys -> In k directKeys) ->
                     firstVideoKey keys (VObj props) = Some d ->
                     exists s, d = VStr s /\ In s (reachable (VObj props)) /\
                               isVideoUrl (VStr s) = true).
    { intros keys Hsub Hf.
      destruct (firstVideoKey_found _ _ _ Hf) as (key & Hin & Hget & Hc).
      destruct (isVideoUrl_is_string _ Hc) as [s ->].
      exists s. repeat split; [|exact Hc].
      apply (reachable_prop key (VStr s)); [now apply lookup_In| |now left].
      apply directKeys_not_skipped, Hsub, Hin. }
    destruct (firstVideoKey priorityKeys (VObj props)) eqn:Ep.
    { injection H as <-. apply (Hkey priorityKeys); [|exact Ep].
      intros k Hk. apply in_or_app. now left. }
    destruct (firstVideoKey genericKeys (VObj props)) eqn:Eg.
    { injection H as <-. apply (Hkey genericKeys); [|exact Eg].
      intros k Hk. apply in_or_app. now right. }
    clear Ep Eg Hkey. cbn [reachable].
    induction IH as [|[k v] ps Hv _ IHps]; [discriminate|].
    cbn [searchProps] in H. cbn [flat_map fst snd].
    destruct (isSkippedKey k).
    { destruct (IHps H) as (s & -> & Hin & Hc). exists s. now repeat split. }
    cbn [snd] in Hv.
    destruct (findDownloadLink v) as [found|] eqn:E.
    + destruct (truthy found).
      * injection H as <-. destruct (Hv _ eq_refl) as (s & -> & Hin & Hc).
        exists s. repeat split; [apply in_or_app; now left|exact Hc].
      * destruct (IHps H) as (s & -> & Hin & Hc).
        exists s. repeat split; [apply in_or_app; now right|exact Hc].
    + destruct (IHps H) as (s & -> & Hin & Hc).
      exists s. repeat split; [apply in_or_app; now right|exact Hc].
Qed.






Lemma firstVideoKey_app (a b : list string) (obj : value) :
  firstVideoKey (a ++ b) obj =
  match firstVideoKey a obj with
  | Some v => Some v
  | None => firstVideoKey b obj
  end.
Proof.
  induction a as [|k a IH]; cbn [app firstVideoKey]; [reflexivity|].
  destruct (getProp obj k) as [v|]; [destruct (truthy v && isVideoUrl v)|];
    first [reflexivity|exact IH].
Qed.

Lemma firstVideoKey_none (keys : list string) (obj : value) :
  (forall k, In k keys -> forall v, getProp obj k = Some v -> isVideoUrl v = false) ->
  firstVideoKey keys obj = None.
Proof.
  induction keys as [|k keys IH]; intros H; cbn [firstVideoKey]; [reflexivity|].
  assert (Hrest : firstVideoKey keys obj = None).
  { apply IH. intros k' Hk'. apply H. now right. }
  destruct (getProp obj k) as [v|] eqn:E; [|exact Hrest].
  rewrite (H k (or_introl eq_refl) v E), andb_false_r. exact Hrest.
Qed.

(** X5. On an object, the ten direct keys are tried in the order hd, sd,
    mp4, video, stream, download_url, download, url, link, src, before
    anything nested is looked at: the first of them that holds a candidate
    string gives the result, whatever the other properties contain. *)
Theorem findDownloadLink_first_direct_key
    (props : list (string * value)) (earlier later : list string) (key u : string) :
  directKeys = (earlier ++ key :: later)%list ->
  lookup key props = Some (VStr u) ->
  isVideoUrl (VStr u) = true ->
  (forall k, In k earlier -> forall v, lookup k props = Some v -> isVideoUrl v = false) ->
  findDownloadLink (VObj props) = Some (VStr u).
Proof.
  intros Hkeys Hget Hc Hearlier.
  assert (Hdirect : firstVideoKey directKeys (VObj props) = Some (VStr u)).
  { rewrite Hkeys, firstVideoKey_app.
    rewrite (firstVideoKey_none earlier (VObj props)) by exact Hearlier.
    cbn [firstVideoKey getProp]. rewrite Hget, Hc, (candidate_truthy _ Hc). reflexivity. }
  unfold directKeys in Hdirect. rewrite firstVideoKey_app in Hdirect.
  rewrite findDownloadLink_VObj.
  destruct (firstVideoKey priorityKeys (VObj props)); [exact Hdirect|].
  now rewrite Hdirect.
Qed.

Lemma findDownloadLink_first_direct_key_witness :
  findDownloadLink
    (VObj [("data", VObj [("hd", VStr "https://x/nested.mp4")]);
           ("hd", VStr "https://x/poster.jpg");
           ("src", VStr "https://x/late.mp4");
           ("url", VStr "https://x/top.mp4")])
  = Some (VStr "https://x/top.mp4").
Proof.
  apply (findDownloadLink_first_direct_key _
           ["hd"; "sd"; "mp4"; "video"; "stream"; "download_url"; "download"]
           ["link"; "src"] "url" "https://x/top.mp4"); try reflexivity.
  intros k Hk v Hv. cbn [In] in Hk.
  repeat (destruct Hk as [<-|Hk]; [cbn in Hv; try discriminate; now injection Hv as <-|]).
  contradiction.
Defined.

Lemma searchItems_app (a b : list value) :
  searchItems (a ++ b) =
  match searchItems a with
  | Some d => Some d
  | None => searchItems b
  end.
Proof.
  induction a as [|v a IH]; cbn [app searchItems]; [reflexivity|].
  destruct (findDownloadLink v) as [found|]; [destruct (truthy found)|];
    first [reflexivity|exact IH].
Qed.

(** X6. A sequence is searched item by item, depth first: the result for a
    concatenation is the result for the first part when there is one, and
    the result for the second part otherwise; an item that yields nothing
    (a number, an image address, an empty object) does not stop the search. *)
Theorem findDownloadLink_array_in_order (a b : list value) :
  findDownloadLink (VArr (a ++ b)) =
  match findDownloadLink (VArr a) with
  | Some d => Some d
  | None => findDownloadLink (VArr b)
  end.
Proof. rewrite !findDownloadLink_VArr. apply searchItems_app. Qed.

(* ===================================================================== *)
(** ** More on the resilient fetcher *)
(* ===================================================================== *)

Lemma tryDirect_answer (targetUrl : string) (env : Env) (w : World) :
  fst (tryDirect targetUrl env w) = Ok (directAnswer (net env (fetches w) (GET targetUrl))).
Proof.
  unfold tryDirect, directAnswer. run.
  destruct (net env (fetches w) (GET targetUrl)) as [r|]; run; [|reflexivity].
  destruct (res_ok r); run; [|reflexivity].
  destruct (isJsonContentType (res_contentType r)); run; [|reflexivity].
  destruct (res_json r); reflexivity.
Qed.

Lemma tryCorsProxy_answer (targetUrl : string) (env : Env) (w : World) :
  fst (tryCorsProxy targetUrl env w) =
  Ok (corsProxyAnswer (net env (fetches w) (GET (corsProxyUrl targetUrl)))).
Proof.
  unfold tryCorsProxy, corsProxyAnswer. run.
  destruct (net env (fetches w) (GET (corsProxyUrl targetUrl))) as [r|]; run;
    [|reflexivity].
  destruct (res_ok r); run; [|reflexivity].
  destruct (res_json r); reflexivity.
Qed.

Lemma tryAllOrigins_answer (targetUrl : string) (env : Env) (w : World) :
  fst (tryAllOrigins targetUrl env w) =
  Ok (allOriginsAnswer env (net env (fetches w) (GET (allOriginsUrl targetUrl)))).
Proof.
  unfold tryAllOrigins, allOriginsAnswer. run.
  destruct (net env (fetches w) (GET (allOriginsUrl targetUrl))) as [r|]; run;
    [|reflexivity].
  destruct (res_ok r); run; [|reflexivity].
  destruct (res_json r) as [data|]; run; [|reflexivity].
  destruct data; run; try reflexivity.
  destruct (getProp (VObj props) "contents") as [c|]; run; [|reflexivity].
  destruct (truthy c); run; [|reflexivity].
  destruct (JSON_parse env c); reflexivity.
Qed.

(** One strategy, with its outcome made explicit. *)
Lemma strategy_step (strategy : M (option value)) (req : request) (env : Env) (w : World)
    (answer : option value) :
  strategyRun strategy req env w ->
  fst (strategy env w) = Ok answer ->
  exists evs,
    strategy env w =
      (Ok answer, mkWorld (state w) (trace (issued w req) ++ evs)%list
                    (S (fetches w)) (draws w)) /\
    requests evs = [].
Proof.
  intros (o & evs & Hrun & Hreq & _) Hfst.
  rewrite Hrun in Hfst. cbn [fst] in Hfst. injection Hfst as ->.
  exists evs. split; assumption.
Qed.

(** The fetcher as a function of the answers it gets. *)
Lemma fetchWithBackups_answer (env : Env) (targetUrl : string) (w : World) :
  exists evs : list event,
    fetchWithBackups targetUrl env w =
      (match fst (firstAnswer env (fetches w) targetUrl) with
       | Some v => Ok v
       | None => Throw fetchFailure
       end,
       mkWorld (state w) (trace w ++ evs)%list
         (fetches w + snd (firstAnswer env (fetches w) targetUrl)) (draws w)) /\
    requests evs =
      firstn (snd (firstAnswer env (fetches w) targetUrl)) (strategyRequests targetUrl).
Proof.
  unfold fetchWithBackups, firstAnswer, strategyRequests.
  destruct (strategy_step _ _ env w _ (tryDirect_run targetUrl env w)
              (tryDirect_answer targetUrl env w)) as (evs1 & H1 & Hr1).
  unfold bind at 1. rewrite H1. unfold issued. cbn [state trace fetches draws].
  destruct (directAnswer (net env (fetches w) (GET targetUrl))) as [v|].
  { exists (EFetch (fetches w) (GET targetUrl) :: evs1).
    cbn [fst snd ret firstn requests]. rewrite Hr1, Nat.add_1_r, <- app_assoc.
    split; reflexivity. }
  cbv beta iota. unfold bind at 1.
  match goal with
  | |- context [tryCorsProxy targetUrl env ?w1] =>
      destruct (strategy_step _ _ env w1 _ (tryCorsProxy_run targetUrl env w1)
                  (tryCorsProxy_answer targetUrl env w1)) as (evs2 & H2 & Hr2)
  end.
  rewrite H2. unfold issued. cbn [state trace fetches draws].
  destruct (corsProxyAnswer (net env (S (fetches w)) (GET (corsProxyUrl targetUrl))))
    as [v|].
  { exists (EFetch (fetches w) (GET targetUrl) :: evs1 ++
            EFetch (S (fetches w)) (GET (corsProxyUrl targetUrl)) :: evs2)%list.
    cbn [fst snd ret firstn requests]. rewrite requests_app. cbn [requests].
    rewrite Hr1, Hr2, <- !app_assoc.
    replace (fetches w + 2) with (S (S (fetches w))) by lia.
    split; reflexivity. }
  cbv beta iota. unfold bind at 1.
  match goal with
  | |- context [tryAllOrigins targetUrl env ?w2] =>
      destruct (strategy_step _ _ env w2 _ (tryAllOrigins_run targetUrl env w2)
                  (tryAllOrigins_answer targetUrl env w2)) as (evs3 & H3 & Hr3)
  end.
  rewrite H3. unfold issued. cbn [state trace fetches draws].
  exists (EFetch (fetches w) (GET targetUrl) :: evs1 ++
          EFetch (S (fetches w)) (GET (corsProxyUrl targetUrl)) :: evs2 ++
          EFetch (S (S (fetches w))) (GET (allOriginsUrl targetUrl)) :: evs3)%list.
  cbn [fst snd firstn requests]. rewrite !requests_app. cbn [requests].
  rewrite requests_app. cbn [requests]. rewrite Hr1, Hr2, Hr3, <- !app_assoc.
  replace (fetches w + 3) with (S (S (S (fetches w)))) by lia.
  split; [|reflexivity].
  destruct (allOriginsAnswer env _); reflexivity.
Qed.

(** X7. The fetcher decides on at most three answers and stops at the first
    usable one: the direct answer when it is a success with a JSON content
    type and a readable body, else the answer of proxy A when it is a
    success with a readable body, else the parsed [contents] of the answer
    of proxy B, else the unified error. It issues exactly the requests up to
    the strategy that succeeded, in order, and calls no setter. *)
Theorem fetchWithBackups_first_answer (env : Env) (targetUrl : string) (w : World) :
  exists evs : list event,
    fetchWithBackups targetUrl env w =
      (match fst (firstAnswer env (fetches w) targetUrl) with
       | Some v => Ok v
       | None => Throw fetchFailure
       end,
       mkWorld (state w) (trace w ++ evs)%list
         (fetches w + snd (firstAnswer env (fetches w) targetUrl)) (draws w)) /\
    requests evs =
      firstn (snd (firstAnswer env (fetches w) targetUrl)) (strategyRequests targetUrl).
Proof. exact (fetchWithBackups_answer env targetUrl w). Qed.

(* ===================================================================== *)
(** ** More on the query action *)
(* ===================================================================== *)

(** The state a query that is not blank ends in, as a function of what the
    fetcher did. *)
Lemma fetchVideoInfo_final (env : Env) (w : World) :
  Str.trim (url (state w)) <> "" ->
  exists (tr : list event) (n d : nat),
    fetchVideoInfo env w =
      (Ok tt,
       mkWorld
         (mkState (url (state w)) false
            (snd (queryOutcome env (fetchedFor env w)))
            (fst (queryOutcome env (fetchedFor env w)))
            (downloading (state w)) (aiLoading (state w)) None (aiMode (state w)))
         tr n d).
Proof.
  intros Hq. unfold fetchedFor, fetchVideoInfo.
  unfold bind at 1. unfold getState at 1. unfold Str.nonEmpty.
  destruct (String.eqb_spec (Str.trim (url (state w))) "") as [E|_];
    [contradiction|]. cbn [negb].
  unfold bind at 1. rewrite resetForNewQuery_run. cbn [snd].
  unfold tryFinally, tryCatch. unfold bind at 1.
  match goal with
  | |- context [fetchWithBackups ?t env ?w1] =>
      destruct (fetchWithBackups_run t env w1) as (o & evs & n & Hrun & _ & _)
  end.
  rewrite Hrun. unfold issued. cbn [state trace fetches draws fst snd].
  destruct o as [data|e].
  - run. unfold queryOutcome.
    destruct data; run;
      try (destruct (findDownloadLink _) as [d|] eqn:Hd;
           [destruct (findDownloadLink_sound _ _ Hd) as (u & -> & _ & Hc);
            rewrite (candidate_truthy _ Hc)|]);
      run;
      cbn [applyUpdate result url loading error downloading aiLoading aiOutput aiMode
           fst snd message];
      eexists; eexists; eexists; reflexivity.
  - run. cbn [applyUpdate result url loading error downloading aiLoading aiOutput aiMode
              queryOutcome fst snd].
    eexists; eexists; eexists; reflexivity.
Qed.

Lemma orElse_nonempty (a b : string) : b <> "" -> Str.orElse a b <> "".
Proof.
  intros Hb. unfold Str.orElse, Str.nonEmpty.
  destruct (String.eqb_spec a "") as [->|Ha]; cbn [negb]; assumption.
Qed.

(** X8. A query that is not blank never raises to its caller and always ends
    with the loading flag reset, the query text untouched and the AI output
    cleared; it ends either with a result and no error, or with no result and
    an error message that is not empty. *)
Theorem fetchVideoInfo_result_or_message (env : Env) (w : World) :
  Str.trim (url (state w)) <> "" ->
  fst (fetchVideoInfo env w) = Ok tt /\
  loading (state (snd (fetchVideoInfo env w))) = false /\
  url (state (snd (fetchVideoInfo env w))) = url (state w) /\
  aiOutput (state (snd (fetchVideoInfo env w))) = None /\
  downloading (state (snd (fetchVideoInfo env w))) = downloading (state w) /\
  ((exists r, result (state (snd (fetchVideoInfo env w))) = Some r /\
              error (state (snd (fetchVideoInfo env w))) = None) \/
   (result (state (snd (fetchVideoInfo env w))) = None /\
    exists m, error (state (snd (fetchVideoInfo env w))) = Some m /\ m <> "")).
Proof.
  intros Hq. destruct (fetchVideoInfo_final env w Hq) as (tr & n & d & ->).
  cbn [fst snd state loading url aiOutput downloading result error].
  do 5 (split; [reflexivity|]).
  unfold queryOutcome.
  destruct (fetchedFor env w) as [data|e].
  - destruct data; try (destruct (findDownloadLink _) as [found|]); cbn [fst snd].
    all: first
      [ left; eexists; split; reflexivity
      | right; split; [reflexivity|]; eexists; split; [reflexivity|];
        first [discriminate | apply orElse_nonempty; discriminate] ].
  - right. split; [reflexivity|]. eexists. split; [reflexivity|].
    apply orElse_nonempty. discriminate.
Qed.

Lemma fetchVideoInfo_result_or_message_witness :
  result (state (snd (fetchVideoInfo (scriptedEnv []) staleWorld))) = None /\
  exists m, error (state (snd (fetchVideoInfo (scriptedEnv []) staleWorld))) = Some m /\
            m <> "".
Proof.
  destruct (fetchVideoInfo_result_or_message (scriptedEnv []) staleWorld)
    as (_ & _ & _ & _ & _ & [(r & Hr & _)|H]).
  - discriminate.
  - vm_compute in Hr. discriminate.
  - exact H.
Defined.

Lemma fetchedFor_firstAnswer (env : Env) (w : World) :
  fetchedFor env w =
  match fst (firstAnswer env (fetches w) (apiEndpoint (url (state w)))) with
  | Some v => Ok v
  | None => Throw fetchFailure
  end.
Proof.
  unfold fetchedFor.
  destruct (fetchWithBackups_answer env (apiEndpoint (url (state w)))
              (snd (resetForNewQuery env w))) as (evs & -> & _).
  rewrite resetForNewQuery_run. reflexivity.
Qed.

Lemma valueOr_truthy (a : option value) (b : value) :
  truthy b = true -> truthy (valueOr a b) = true.
Proof.
  intros Hb. destruct a as [v|]; cbn [valueOr]; [|exact Hb].
  destruct (truthy v) eqn:E; assumption.
Qed.

Lemma valueOr_falsy (a : option value) (b : value) :
  (forall v, a = Some v -> truthy v = false) -> valueOr a b = b.
Proof.
  intros H. destruct a as [v|]; cbn [valueOr]; [|reflexivity].
  now rewrite (H v eq_refl).
Qed.

(** X9. A result is stored only for a document the fetcher returned and in
    which the extractor found a link: the stored link is that candidate
    string, the stored source is the document, the title is the first truthy
    one of [title], [text], [caption] and else "Downloaded Video", the author
    is [author] when truthy and else "Unknown", so both are always truthy,
    and the thumbnail is a truthy value or null. *)
Theorem fetchVideoInfo_stored_result (env : Env) (w : World) (r : ExtractionResult) :
  Str.trim (url (state w)) <> "" ->
  result (state (snd (fetchVideoInfo env w))) = Some r ->
  fetchedFor env w = Ok (source r) /\
  findDownloadLink (source r) = Some (downloadUrl r) /\
  (exists s, downloadUrl r = VStr s /\ isVideoUrl (VStr s) = true /\
             In s (reachable (source r))) /\
  truthy (title r) = true /\
  truthy (author r) = true /\
  (thumbnail r = VNull \/ truthy (thumbnail r) = true) /\
  (forall t, getProp (source r) "title" = Some t -> truthy t = true -> title r = t) /\
  ((forall k t, In k ["title"; "text"; "caption"] ->
                getProp (source r) k = Some t -> truthy t = false) ->
   title r = VStr "Downloaded Video") /\
  ((forall t, getProp (source r) "author" = Some t -> truthy t = false) ->
   author r = VStr "Unknown").
Proof.
  intros Hq. destruct (fetchVideoInfo_final env w Hq) as (tr & n & d & ->).
  cbn [snd state result]. unfold queryOutcome.
  destruct (fetchedFor env w) as [data|e]; [|discriminate].
  assert (Hmain : forall found,
             findDownloadLink data = Some found ->
             Some (extractionResult data found) = Some r ->
             Ok data = Ok (source r) /\
             findDownloadLink (source r) = Some (downloadUrl r) /\
             (exists s, downloadUrl r = VStr s /\ isVideoUrl (VStr s) = true /\
                        In s (reachable (source r))) /\
             truthy (title r) = true /\
             truthy (author r) = true /\
             (thumbnail r = VNull \/ truthy (thumbnail r) = true) /\
             (forall t, getProp (source r) "title" = Some t -> truthy t = true ->
                        title r = t) /\
             ((forall k t, In k ["title"; "text"; "caption"] ->
                           getProp (source r) k = Some t -> truthy t = false) ->
              title r = VStr "Downloaded Video") /\
             ((forall t, getProp (source r) "author" = Some t -> truthy t = false) ->
              author r = VStr "Unknown")).
  { intros found Hf Hr. injection Hr as <-.
    cbn [extractionResult source downloadUrl title author thumbnail].
    split; [reflexivity|]. split; [exact Hf|].
    split.
    { destruct (findDownloadLink_sound _ _ Hf) as (s & -> & Hin & Hc).
      exists s. now repeat split. }
    split; [repeat apply valueOr_truthy; reflexivity|].
    split; [apply valueOr_truthy; reflexivity|].
    split.
    { destruct (getProp data "thumbnail") as [a|]; cbn [valueOr];
        [destruct (truthy a) eqn:Ea; [now right|]|];
        (destruct (getProp data "image") as [b|]; cbn [valueOr];
         [destruct (truthy b) eqn:Eb; [now right|]|]);
        (destruct (getProp data "cover") as [c|]; cbn [valueOr];
         [destruct (truthy c) eqn:Ec; [now right|]|]);
        now left. }
    split.
    { intros t Ht Htt. rewrite Ht. cbn [valueOr]. now rewrite Htt. }
    split.
    { intros H. rewrite !valueOr_falsy; [reflexivity| | |];
        intros v Hv; eapply H; try exact Hv; cbn [In]; tauto. }
    intros H. now rewrite valueOr_falsy. }
  destruct data; try (destruct (findDownloadLink _) as [found|] eqn:Hf);
    cbn [fst]; try discriminate; intros Hr; exact (Hmain _ eq_refl Hr).
Qed.

Lemma fetchVideoInfo_stored_result_witness :
  exists r,
    result (state (snd (fetchVideoInfo
                          (scriptedEnv [Some (jsonAnswer
                             (VObj [("caption", VStr "Clip"); ("src", VStr "https://x/v.mp4")]))])
                          staleWorld))) = Some r /\
    title r = VStr "Clip" /\ author r = VStr "Unknown".
Proof.
  pose (env := scriptedEnv [Some (jsonAnswer
                 (VObj [("caption", VStr "Clip"); ("src", VStr "https://x/v.mp4")]))]).
  pose (r := extractionResult
               (VObj [("caption", VStr "Clip"); ("src", VStr "https://x/v.mp4")])
               (VStr "https://x/v.mp4")).
  exists r.
  assert (Hr : result (state (snd (fetchVideoInfo env staleWorld))) = Some r)
    by (vm_compute; reflexivity).
  split; [exact Hr|].
  destruct (fetchVideoInfo_stored_result env staleWorld r) as (_ & _ & _ & _ & _ & _ & _ & _ & Ha);
    [discriminate|exact Hr|].
  split; [reflexivity|]. apply Ha. intros t Ht. discriminate.
Defined.

(** X10. When the fetcher returns the document [null] (a proxy answered with
    the JSON text null), reading its title throws: the query stores no
    result and shows the engine's message for that error, or the fixed
    fallback when that message is empty, not the extraction-failure
    message. *)
Theorem fetchVideoInfo_null_document (env : Env) (w : World) :
  Str.trim (url (state w)) <> "" ->
  fst (firstAnswer env (fetches w) (apiEndpoint (url (state w)))) = Some VNull ->
  result (state (snd (fetchVideoInfo env w))) = None /\
  error (state (snd (fetchVideoInfo env w))) =
    Some (Str.orElse (nativeMessage env (NullProperty "title")) unexpectedError).
Proof.
  intros Hq Hnull. destruct (fetchVideoInfo_final env w Hq) as (tr & n & d & ->).
  rewrite fetchedFor_firstAnswer, Hnull. split; reflexivity.
Qed.

Lemma fetchVideoInfo_null_document_witness :
  error (state (snd (fetchVideoInfo
                       (scriptedEnv [None; Some (jsonAnswer VNull)]) staleWorld)))
  = Some "Failed".
Proof.
  destruct (fetchVideoInfo_null_document
              (scriptedEnv [None; Some (jsonAnswer VNull)]) staleWorld) as [_ H];
    [discriminate|reflexivity|].
  rewrite H. reflexivity.
Defined.

(** X11. When none of the three answers is usable, the query stores no
    result and shows the unified fetch-failure message. *)
Theorem fetchVideoInfo_fetch_failure (env : Env) (w : World) :
  Str.trim (url (state w)) <> "" ->
  fst (firstAnswer env (fetches w) (apiEndpoint (url (state w)))) = None ->
  result (state (snd (fetchVideoInfo env w))) = None /\
  error (state (snd (fetchVideoInfo env w))) =
    Some "Unable to fetch video info. Network might be blocked or URL is invalid.".
Proof.
  intros Hq Hnone. destruct (fetchVideoInfo_final env w Hq) as (tr & n & d & ->).
  rewrite fetchedFor_firstAnswer, Hnone. split; reflexivity.
Qed.

Lemma fetchVideoInfo_fetch_failure_witness :
  error (state (snd (fetchVideoInfo (scriptedEnv [Some htmlPage]) staleWorld)))
  = Some "Unable to fetch video info. Network might be blocked or URL is invalid.".
Proof.
  destruct (fetchVideoInfo_fetch_failure (scriptedEnv [Some htmlPage]) staleWorld)
    as [_ H]; [discriminate|reflexivity|exact H].
Defined.

(* ===================================================================== *)
(** ** More on the download orchestrator *)
(* ===================================================================== *)

(** The events of a run of the orchestrator on a string name. *)
Lemma handleDownload_events (env : Env) (fileUrl fileName : string) (w : World) :
  exists (evs : list event) (n d : nat),
    handleDownload fileUrl (VStr fileName) env w =
      (Ok tt,
       mkWorld (applyUpdate (state w) (SetDownloading false)) (trace w ++ evs)%list n d) /\
    clicks evs = [chosenLink env (fetches w) (draws w) fileUrl fileName] /\
    requests evs = downloadRequests env (fetches w) fileUrl /\
    revokedURLs evs = map (objectURL env) (createdBlobs evs) /\
    length (createdBlobs evs) <= 1.
Proof.
  unfold handleDownload, newTabFallback, triggerBrowserDownload, chosenLink,
    downloadRequests, binaryBlob.
  run. rewrite ?computeFileName_string.
  repeat (run; rewrite ?computeFileName_string; split_match).
  all: run; rewrite ?computeFileName_string; run.
  all: cbn [applyUpdate url loading error result downloading aiLoading aiOutput aiMode].
  all: try (exfalso; cbn [negb] in *; congruence).
  all: normalise_run.
  all: eexists; eexists; eexists.
  all: (split; [reflexivity|]).
  all: cbn [clicks requests revokedURLs createdBlobs map length].
  all: repeat split; try reflexivity; try lia.
Qed.

(** X12. On a string name every run of the orchestrator clicks exactly one
    link: the saved object of the direct retrieval when it succeeds (named
    with the first random draw, and proxy A is then never contacted), else
    the saved object of the retrieval through proxy A (named with a fresh
    draw), else the link to the media address that opens in a new tab. *)
Theorem handleDownload_clicks_one_link
    (env : Env) (fileUrl fileName : string) (w : World) :
  exists (evs : list event) (n d : nat),
    handleDownload fileUrl (VStr fileName) env w =
      (Ok tt,
       mkWorld (applyUpdate (state w) (SetDownloading false)) (trace w ++ evs)%list n d) /\
    clicks evs = [chosenLink env (fetches w) (draws w) fileUrl fileName] /\
    requests evs = downloadRequests env (fetches w) fileUrl.
Proof.
  destruct (handleDownload_events env fileUrl fileName w)
    as (evs & n & d & Hrun & Hc & Hr & _).
  exists evs, n, d. repeat split; assumption.
Qed.

(** X13. On a string name every address the orchestrator obtains for a
    binary object with [createObjectURL] is released with [revokeObjectURL],
    and nothing else is released; at most one such address is obtained per
    run. *)
Theorem handleDownload_releases_object_urls
    (env : Env) (fileUrl fileName : string) (w : World) :
  exists (evs : list event) (n d : nat),
    handleDownload fileUrl (VStr fileName) env w =
      (Ok tt,
       mkWorld (applyUpdate (state w) (SetDownloading false)) (trace w ++ evs)%list n d) /\
    revokedURLs evs = map (objectURL env) (createdBlobs evs) /\
    length (createdBlobs evs) <= 1.
Proof.
  destruct (handleDownload_events env fileUrl fileName w)
    as (evs & n & d & Hrun & _ & _ & Hrev & Hlen).
  exists evs, n, d. repeat split; assumption.
Qed.

(* ===================================================================== *)
(** ** More on the file name *)
(* ===================================================================== *)


Lemma allChars_append (p : ascii -> bool) (a b : string) :
  allChars p (a ++ b) = allChars p a && allChars p b.
Proof.
  induction a as [|c a IH]; cbn; [reflexivity|]. now rewrite IH, andb_assoc.
Qed.















(** X15. With a truthy name that is not a string the file name cannot be
    computed: the direct request is never issued, the only request goes to
    proxy A, and when that retrieval succeeds the address obtained for its
    binary object is never released and nothing is saved. *)
Theorem handleDownload_non_string_name_leaks
    (env : Env) (fileUrl : string) (fileName : value) (w : World) :
  truthy fileName = true ->
  (forall s, fileName <> VStr s) ->
  exists (evs : list event) (n : nat),
    handleDownload fileUrl fileName env w =
      (Throw (Native (NotAFunction "replace")),
       mkWorld (applyUpdate (state w) (SetDownloading false)) (trace w ++ evs)%list
         n (draws w)) /\
    requests evs = [GET (corsProxyUrl fileUrl)] /\
    createdBlobs evs =
      match binaryBlob env (fetches w) (corsProxyUrl fileUrl) with
      | Some b => [b]
      | None => []
      end /\
    revokedURLs evs = [] /\
    clicks evs = [].
Proof.
  intros Ht Hs.
  unfold handleDownload, newTabFallback, triggerBrowserDownload, binaryBlob.
  run. rewrite ?(computeFileName_non_string _ _ _ Ht Hs).
  repeat (run; rewrite ?(computeFileName_non_string _ _ _ Ht Hs); split_match).
  all: run; rewrite ?(computeFileName_non_string _ _ _ Ht Hs); run.
  all: cbn [applyUpdate url loading error result downloading aiLoading aiOutput aiMode].
  all: try (exfalso; cbn [negb] in *; congruence).
  all: match goal with
       | |- exists (evs : list event) (n : nat), ?out = @?rhs evs n /\ @?rest evs n =>
           let x := fresh "out" in
           let H := fresh "Hout" in
           remember out as x eqn:H;
           rewrite <- ?app_assoc in H; cbn [app] in H; subst x
       end.
  all: eexists; eexists; (split; [reflexivity|]).
  all: cbn [clicks requests revokedURLs createdBlobs].
  all: repeat split; reflexivity.
Qed.

Lemma handleDownload_non_string_name_leaks_witness :
  exists evs n,
    snd (handleDownload "https://cdn/v.mp4" (VNum 7%float)
           (scriptedEnv [Some (mkResponse true None None (Some 5))])
           (freshWorld (idleState "q")))
    = mkWorld (idleState "q") evs n 0 /\
    createdBlobs evs = [5] /\ revokedURLs evs = [].
Proof.
  destruct (handleDownload_non_string_name_leaks
              (scriptedEnv [Some (mkResponse true None None (Some 5))])
              "https://cdn/v.mp4" (VNum 7%float) (freshWorld (idleState "q")))
    as (evs & n & Hrun & _ & Hc & Hr & _).
  - reflexivity.
  - intros s; discriminate.
  - exists evs, n. rewrite Hrun. repeat split; assumption.
Defined.

(* ===================================================================== *)
(** ** The addresses the component builds *)
(* ===================================================================== *)

Lemma encodeChar_alphabet (c : ascii) : allChars isEncodedChar (Str.encodeChar c) = true.
Proof.
  revert c. apply forall_ascii. vm_compute. reflexivity.
Qed.

Lemma encodeURIComponent_alphabet (s : string) :
  allChars isEncodedChar (Str.encodeURIComponent s) = true.
Proof.
  induction s as [|c s IH]; cbn [Str.encodeURIComponent]; [reflexivity|].
  now rewrite allChars_append, encodeChar_alphabet, IH.
Qed.

Lemma percentDecode_encodeChar (c : ascii) (rest : string) :
  percentDecode (Str.encodeChar c ++ rest) = String c (percentDecode rest).
Proof.
  destruct c as [[] [] [] [] [] [] [] []]; reflexivity.
Qed.

(** Decoding undoes encoding. *)
Lemma percentDecode_encodeURIComponent (s : string) :
  percentDecode (Str.encodeURIComponent s) = s.
Proof.
  induction s as [|c s IH]; cbn [Str.encodeURIComponent]; [reflexivity|].
  now rewrite percentDecode_encodeChar, IH.
Qed.

Lemma append_inj_l (p a b : string) : p ++ a = p ++ b -> a = b.
Proof.
  induction p as [|c p IH]; cbn; [trivial|]. intros H. injection H as H. now apply IH.
Qed.

Lemma encodeURIComponent_inj (a b : string) :
  Str.encodeURIComponent a = Str.encodeURIComponent b -> a = b.
Proof.
  intros H. rewrite <- (percentDecode_encodeURIComponent a), H.
  apply percentDecode_encodeURIComponent.
Qed.

Lemma encoded_not_delimiter (c : ascii) : isEncodedChar c = true -> isDelimiter c = false.
Proof.
  assert (H : forall c, implb (isEncodedChar c) (negb (isDelimiter c)) = true).
  { apply forall_ascii. vm_compute. reflexivity. }
  intros Hc. specialize (H c). rewrite Hc in H. now apply negb_true_iff.
Qed.

Lemma allChars_impl (p q : ascii -> bool) (s : string) :
  (forall c, p c = true -> q c = true) -> allChars p s = true -> allChars q s = true.
Proof.
  intros Hpq. induction s as [|c s IH]; cbn; [reflexivity|].
  intros H. apply andb_true_iff in H as [Hc Hs]. now rewrite (Hpq c Hc), IH.
Qed.

Lemma encodeURIComponent_no_delimiter (s : string) :
  allChars (fun c => negb (isDelimiter c)) (Str.encodeURIComponent s) = true.
Proof.
  apply (allChars_impl isEncodedChar); [|apply encodeURIComponent_alphabet].
  intros c Hc. now rewrite (encoded_not_delimiter c Hc).
Qed.

(** X16. In each address the component builds (the metadata endpoint, proxy
    A, proxy B) the target follows the fixed prefix in encoded form: only
    letters, digits, the marks - _ . ! ~ * ' ( ) and percent signs, so none
    of the delimiters ampersand, equals, question mark, hash, slash, colon,
    space or plus, whatever the target contains. *)
Theorem addresses_embed_target_safely (target : string) :
  exists tail : string,
    apiEndpoint target = "https://tele-social.vercel.app/down?url=" ++ tail /\
    corsProxyUrl target = "https://corsproxy.io/?" ++ tail /\
    allOriginsUrl target = "https://api.allorigins.win/get?url=" ++ tail /\
    allChars isEncodedChar tail = true /\
    allChars (fun c => negb (isDelimiter c)) tail = true.
Proof.
  exists (Str.encodeURIComponent target).
  repeat split; try reflexivity.
  - apply encodeURIComponent_alphabet.
  - apply encodeURIComponent_no_delimiter.
Qed.

(** X17. The encoding loses nothing: decoding the percent escapes of the
    embedded part gives the target back, so two different targets never give
    the same address, and the three requests of the fetcher for the endpoint
    of a query determine the query text. *)
Theorem addresses_determine_target :
  (forall target, percentDecode (Str.encodeURIComponent target) = target) /\
  (forall a b, apiEndpoint a = apiEndpoint b -> a = b) /\
  (forall a b, corsProxyUrl a = corsProxyUrl b -> a = b) /\
  (forall a b, allOriginsUrl a = allOriginsUrl b -> a = b) /\
  (forall a b, corsProxyUrl (apiEndpoint a) = corsProxyUrl (apiEndpoint b) -> a = b).
Proof.
  assert (Hapi : forall a b, apiEndpoint a = apiEndpoint b -> a = b).
  { intros a b H. now apply encodeURIComponent_inj, (append_inj_l _ _ _ H). }
  assert (Hcors : forall a b, corsProxyUrl a = corsProxyUrl b -> a = b).
  { intros a b H. now apply encodeURIComponent_inj, (append_inj_l _ _ _ H). }
  split; [exact percentDecode_encodeURIComponent|].
  split; [exact Hapi|]. split; [exact Hcors|]. split.
  - intros a b H. now apply encodeURIComponent_inj, (append_inj_l _ _ _ H).
  - intros a b H. now apply Hapi, Hcors.
Qed.

Lemma addresses_determine_target_witness :
  "https://a/?x=1&y=2" = "https://a/?x=1&y=2".
Proof.
  apply (proj1 (proj2 addresses_determine_target)). reflexivity.
Defined.

(* ===================================================================== *)
(** ** More on the generative-text action *)
(* ===================================================================== *)

(** A run of the action when there is a current result. *)
Lemma generateAIContentWith_final
    (env : Env) (key mode : string) (w : World) (r : ExtractionResult) :
  result (state w) = Some r ->
  exists evs : list event,
    generateAIContentWith key mode env w =
      (Ok tt,
       mkWorld
         (mkState (url (state w)) (loading (state w)) (error (state w)) (Some r)
            (downloading (state w)) false
            (Some (aiShown env (fetches w) key mode r)) (Some mode))
         (trace w ++ evs)%list
         (if Str.nonEmpty key then S (fetches w) else fetches w) (draws w)) /\
    requests evs =
      (if Str.nonEmpty key then [aiRequest key (aiPrompt env mode r)] else []).
Proof.
  intros Hres. unfold generateAIContentWith, aiShown, generatedText. run.
  rewrite Hres. run.
  destruct (Str.nonEmpty key); cbn [negb]; run.
  2:{ cbn [applyUpdate url loading error result downloading aiLoading aiOutput aiMode].
      rewrite ?Hres. eexists. split; [rewrite <- ?app_assoc; cbn [app]; reflexivity|reflexivity]. }
  destruct (net env (fetches w) (aiRequest key (aiPrompt env mode r))) as [resp|]; run.
  2:{ cbn [applyUpdate url loading error result downloading aiLoading aiOutput aiMode].
      rewrite ?Hres. eexists. split; [rewrite <- ?app_assoc; cbn [app]; reflexivity|reflexivity]. }
  destruct (res_ok resp); cbn [negb]; run.
  2:{ cbn [applyUpdate url loading error result downloading aiLoading aiOutput aiMode].
      rewrite ?Hres. eexists. split; [rewrite <- ?app_assoc; cbn [app]; reflexivity|reflexivity]. }
  destruct (res_json resp) as [data|]; run.
  2:{ cbn [applyUpdate url loading error result downloading aiLoading aiOutput aiMode].
      rewrite ?Hres. eexists. split; [rewrite <- ?app_assoc; cbn [app]; reflexivity|reflexivity]. }
  destruct data; run;
    try change (candidateText (getProp VNull "candidates")) with (@None value);
    try (match goal with
         | |- context [candidateText ?x] =>
             destruct (candidateText x) as [t|]; [destruct (truthy t)|]
         end); run;
    cbn [applyUpdate url loading error result downloading aiLoading aiOutput aiMode];
    rewrite ?Hres; eexists; (split; [rewrite <- ?app_assoc; cbn [app]; reflexivity|reflexivity]).
Qed.

Lemma generatedText_truthy
    (env : Env) (n : nat) (key mode : string) (r : ExtractionResult) :
  truthy (aiShown env n key mode r) = true.
Proof.
  unfold aiShown, generatedText.
  destruct (Str.nonEmpty key); [|reflexivity].
  destruct (net env n _) as [resp|]; [|reflexivity].
  destruct (res_ok resp); [|reflexivity].
  destruct (res_json resp) as [data|]; [|reflexivity].
  destruct (candidateText _) as [t|]; [|reflexivity].
  destruct (truthy t) eqn:Ht; [exact Ht|reflexivity].
Qed.

(** The optional chain reads the text of the first part of the first
    candidate. *)
Lemma candidateText_first_part
    (data c content p t : value) (cs ps : list value) :
  getProp data "candidates" = Some (VArr (c :: cs)) ->
  getProp c "content" = Some content ->
  getProp content "parts" = Some (VArr (p :: ps)) ->
  getProp p "text" = Some t ->
  candidateText (getProp data "candidates") = Some t.
Proof.
  intros Hd Hc Hcontent Hp. rewrite Hd. unfold candidateText.
  cbn [optChain getIndex0 hd_error].
  destruct c; try discriminate Hc. cbn [optChain]. rewrite Hc.
  destruct content; try discriminate Hcontent. cbn [optChain]. rewrite Hcontent.
  cbn [optChain getIndex0 hd_error].
  destruct p; try discriminate Hp. cbn [optChain]. exact Hp.
Qed.

(** X18. generateAIContent as shipped, with its empty API key: whenever a
    result is on screen the action ends normally, issues no network request
    at all, and leaves the fixed notice about the missing key as the AI
    output, with the busy flag cleared and the mode recorded. *)
Theorem generateAIContent_shipped_is_offline
    (env : Env) (mode : string) (w : World) (r : ExtractionResult) :
  result (state w) = Some r ->
  exists (evs : list event) (w' : World),
    generateAIContent mode env w = (Ok tt, w') /\
    trace w' = (trace w ++ evs)%list /\
    requests evs = [] /\
    fetches w' = fetches w /\
    aiOutput (state w') = Some (VStr aiFallbackText) /\
    aiLoading (state w') = false /\
    aiMode (state w') = Some mode.
Proof.
  intros Hres.
  destruct (generateAIContentWith_final env apiKey mode w r Hres) as [evs [Hrun Hreq]].
  exists evs. eexists. split; [exact Hrun|].
  cbn [state trace fetches aiOutput aiLoading aiMode].
  repeat split. exact Hreq.
Qed.

Lemma generateAIContent_shipped_is_offline_witness :
  result (state staleWorld) = Some staleResult /\
  exists (evs : list event) (w' : World),
    generateAIContent "ideas" (scriptedEnv []) staleWorld = (Ok tt, w') /\
    trace w' = (trace staleWorld ++ evs)%list /\
    requests evs = [] /\
    fetches w' = fetches staleWorld /\
    aiOutput (state w') = Some (VStr aiFallbackText) /\
    aiLoading (state w') = false /\
    aiMode (state w') = Some "ideas".
Proof.
  split; [reflexivity|].
  apply (generateAIContent_shipped_is_offline (scriptedEnv []) "ideas" staleWorld staleResult).
  reflexivity.
Defined.

(** X19. generateAIContent, what is on screen afterwards: for every API key,
    mode and outside world, once the action has run on a state with a result
    the AI panel is shown with a truthy text, under the heading
    AI Generated Caption for the mode caption and Creative Ideas for every
    other mode; both AI buttons are enabled again, neither spinner turns,
    and the result card is still the same. *)
Theorem generateAIContent_shows_panel
    (env : Env) (key mode : string) (w : World) (r : ExtractionResult) :
  result (state w) = Some r ->
  exists (text : value) (w' : World),
    generateAIContentWith key mode env w = (Ok tt, w') /\
    truthy text = true /\
    aiPanel (render (state w')) =
      Some (if (mode =? "caption")%string then "AI Generated Caption"
            else "Creative Ideas", text) /\
    aiDisabled (render (state w')) = false /\
    captionSpinner (render (state w')) = false /\
    ideasSpinner (render (state w')) = false /\
    resultShown (render (state w')) = Some r.
Proof.
  intros Hres.
  destruct (generateAIContentWith_final env key mode w r Hres) as [evs [Hrun _]].
  exists (aiShown env (fetches w) key mode r). eexists. split; [exact Hrun|].
  pose proof (generatedText_truthy env (fetches w) key mode r) as Ht.
  split; [exact Ht|].
  unfold render.
  cbn [state aiPanel aiDisabled captionSpinner ideasSpinner resultShown
       result aiOutput aiMode aiLoading isMode andb].
  rewrite Ht. repeat split.
Qed.

Lemma generateAIContent_shows_panel_witness :
  result (state staleWorld) = Some staleResult /\
  exists (text : value) (w' : World),
    generateAIContentWith "k" "ideas" (scriptedEnv [Some htmlPage]) staleWorld = (Ok tt, w') /\
    truthy text = true /\
    aiPanel (render (state w')) =
      Some (if ("ideas" =? "caption")%string then "AI Generated Caption"
            else "Creative Ideas", text) /\
    aiDisabled (render (state w')) = false /\
    captionSpinner (render (state w')) = false /\
    ideasSpinner (render (state w')) = false /\
    resultShown (render (state w')) = Some staleResult.
Proof.
  split; [reflexivity|].
  apply (generateAIContent_shows_panel (scriptedEnv [Some htmlPage]) "k" "ideas"
           staleWorld staleResult).
  reflexivity.
Defined.

(** X20. generateAIContent, the path that succeeds: with a non-empty API
    key and a result on screen, if the one request is answered with a
    successful status and a body whose first candidate's first part carries
    a truthy text, then exactly that request is issued, a POST of the
    mode's prompt to the generative endpoint, and that text becomes the AI
    output. *)
Theorem generateAIContent_shows_generated_text
    (env : Env) (key mode : string) (w : World) (r : ExtractionResult)
    (resp : response) (data c content p t : value) (cs ps : list value) :
  result (state w) = Some r ->
  Str.nonEmpty key = true ->
  net env (fetches w) (aiRequest key (aiPrompt env mode r)) = Some resp ->
  res_ok resp = true ->
  res_json resp = Some data ->
  getProp data "candidates" = Some (VArr (c :: cs)) ->
  getProp c "content" = Some content ->
  getProp content "parts" = Some (VArr (p :: ps)) ->
  getProp p "text" = Some t ->
  truthy t = true ->
  exists (evs : list event) (w' : World),
    generateAIContentWith key mode env w = (Ok tt, w') /\
    trace w' = (trace w ++ evs)%list /\
    requests evs = [aiRequest key (aiPrompt env mode r)] /\
    aiOutput (state w') = Some t /\
    aiLoading (state w') = false.
Proof.
  intros Hres Hkey Hnet Hok Hjson Hd Hc Hcontent Hp Ht.
  destruct (generateAIContentWith_final env key mode w r Hres) as [evs [Hrun Hreq]].
  exists evs. eexists. split; [exact Hrun|].
  cbn [state trace aiOutput aiLoading].
  rewrite Hkey in Hreq.
  split; [reflexivity|]. split; [exact Hreq|]. split; [|reflexivity].
  unfold aiShown, generatedText.
  rewrite Hkey, Hnet, Hok, Hjson.
  rewrite (candidateText_first_part data c content p t cs ps Hd Hc Hcontent Hp).
  rewrite Ht. reflexivity.
Qed.

Lemma generateAIContent_shows_generated_text_witness :
  exists (evs : list event) (w' : World),
    generateAIContentWith "k" "caption"
      (scriptedEnv [Some (jsonAnswer (generatedDocument "Nice clip"))]) staleWorld
      = (Ok tt, w') /\
    trace w' = (trace staleWorld ++ evs)%list /\
    requests evs =
      [aiRequest "k"
         (aiPrompt (scriptedEnv [Some (jsonAnswer (generatedDocument "Nice clip"))])
            "caption" staleResult)] /\
    aiOutput (state w') = Some (VStr "Nice clip") /\
    aiLoading (state w') = false.
Proof.
  apply (generateAIContent_shows_generated_text
           (scriptedEnv [Some (jsonAnswer (generatedDocument "Nice clip"))])
           "k" "caption" staleWorld staleResult
           (jsonAnswer (generatedDocument "Nice clip"))
           (generatedDocument "Nice clip")
           (VObj [("content", VObj [("parts", VArr [VObj [("text", VStr "Nice clip")]])])])
           (VObj [("parts", VArr [VObj [("text", VStr "Nice clip")]])])
           (VObj [("text", VStr "Nice clip")])
           (VStr "Nice clip") [] []);
    reflexivity.
Defined.

(* ===================================================================== *)
(** ** The synchronous handlers and the view *)
(* ===================================================================== *)

(** X21. handleInputChange and handlePaste: typing into the field stores
    the typed text and always leaves the error banner hidden, while pasting
    stores the clipboard text and leaves the banner exactly as it was;
    neither touches the result card or the AI panel's data, and a refused
    clipboard changes nothing at all. *)
Theorem typing_dismisses_error_pasting_keeps_it
    (typed : string) (clipboard : option string) (s : AppState) :
  url (handleInputChange typed s) = typed /\
  errorShown (render (handleInputChange typed s)) = None /\
  result (handleInputChange typed s) = result s /\
  aiOutput (handleInputChange typed s) = aiOutput s /\
  errorShown (render (handlePaste clipboard s)) = errorShown (render s) /\
  result (handlePaste clipboard s) = result s /\
  url (handlePaste clipboard s) =
    match clipboard with Some text => text | None => url s end /\
  handlePaste None s = s.
Proof.
  unfold handleInputChange, handlePaste, render, withUrl.
  destruct s as [u l e r d al ao am].
  cbn [url loading error result downloading aiLoading aiOutput aiMode].
  destruct (truthyText e) eqn:He;
    cbn [applyUpdate url loading error result downloading aiLoading aiOutput aiMode
         errorShown truthyText];
    rewrite ?He; destruct clipboard;
    cbn [url error result errorShown]; rewrite ?He; repeat split.
Qed.
